(** * Faculty scraper: the extraction helpers and the record processor

    A shallow embedding of [helpers.js] (confidence scorer, profile-link
    resolver, context extractors, field cleaners) and of the record
    processor, dialect detector and method dispatch of [main.js].

    Strings.  A JavaScript string is a sequence of UTF-16 code units.  The
    model takes [string], i.e. sequences of code units below U+0100
    (Latin-1).  On that range [toLowerCase], [trim], the class [\s] and
    case-insensitive matching are closed and are modelled exactly.  One
    thing holds on Latin-1 and not beyond: [toLowerCase] keeps the length
    of a Latin-1 text, and lengthens a text that holds U+0130.  No theorem
    below rests on it; where the code behaves otherwise for it, the module
    [Utf16] has the code over 16-bit code units.

    Numbers.  The confidence scores are the decimal literals of the source,
    kept as exact rationals; the only arithmetic on them is the comparison
    [emailConfidence > 0.5], which agrees on these literals with the
    comparison of the doubles they denote. *)

From Stdlib Require Import String Ascii List Bool Arith NArith Lia QArith.
Import ListNotations.
Local Open Scope string_scope.
Local Open Scope nat_scope.

(* ================================================================== *)
(** ** JavaScript string primitives *)
(* ================================================================== *)

Module JS.

Definition code (c : ascii) : nat := nat_of_ascii c.

Definition between (lo hi : nat) (c : ascii) : bool :=
  (lo <=? code c) && (code c <=? hi).

(** WhiteSpace and LineTerminator below U+0100: TAB, LF, VT, FF, CR, SP and
    NBSP.  This is what [\s] matches and what [trim] strips. *)
Definition isWhiteSpace (c : ascii) : bool :=
  between 9 13 c || (code c =? 32) || (code c =? 160).

(** LineTerminator below U+0100: what [.] does not match. *)
Definition isLineTerminator (c : ascii) : bool :=
  (code c =? 10) || (code c =? 13).

(** [\d] *)
Definition isDigit (c : ascii) : bool := between 48 57 c.

(** Lower-case mapping of one code unit: A-Z, and U+00C0..U+00DE except the
    multiplication sign U+00D7. *)
Definition toLowerChar (c : ascii) : ascii :=
  if between 65 90 c || (between 192 222 c && negb (code c =? 215))
  then ascii_of_nat (code c + 32)
  else c.

Fixpoint toLowerCase (s : string) : string :=
  match s with
  | EmptyString => EmptyString
  | String c s' => String (toLowerChar c) (toLowerCase s')
  end.

(** [a > b] on numbers. *)
Definition gt (a b : Q) : bool := negb (Qle_bool a b).

(** [!s] for a string [s]. *)
Definition isEmpty (s : string) : bool :=
  match s with EmptyString => true | String _ _ => false end.

(** [s.slice(n)] *)
Fixpoint drop (n : nat) (s : string) : string :=
  match n, s with
  | S n', String _ s' => drop n' s'
  | _, _ => s
  end.

(** [s.slice(0, n)] *)
Fixpoint take (n : nat) (s : string) : string :=
  match n, s with
  | S n', String c s' => String c (take n' s')
  | _, _ => EmptyString
  end.

(** [s.startsWith(p)] *)
Definition startsWith (s p : string) : bool := String.prefix p s.

(** [s.includes(t)] *)
Fixpoint includes (s t : string) : bool :=
  String.prefix t s ||
  match s with
  | EmptyString => false
  | String _ s' => includes s' t
  end.

Fixpoint trimStart (s : string) : string :=
  match s with
  | EmptyString => EmptyString
  | String c s' => if isWhiteSpace c then trimStart s' else s
  end.

Fixpoint trimEnd (s : string) : string :=
  match s with
  | EmptyString => EmptyString
  | String c s' =>
      match trimEnd s' with
      | EmptyString => if isWhiteSpace c then EmptyString else String c EmptyString
      | r => String c r
      end
  end.

(** [s.trim()] *)
Definition trim (s : string) : string := trimEnd (trimStart s).

(** [s.split(sep)] for a separator of one code unit.  The result is never
    empty: [split sep ""] is the list of the empty string. *)
Fixpoint split (sep : ascii) (s : string) : list string :=
  match s with
  | EmptyString => [EmptyString]
  | String c s' =>
      if Ascii.eqb c sep then EmptyString :: split sep s'
      else match split sep s' with
           | h :: t => String c h :: t
           | [] => [String c EmptyString]
           end
  end.

(** [a[i]] on an array of strings; [None] is [undefined]. *)
Definition at_ (a : list string) (i : nat) : option string := nth_error a i.

(** A string-valued expression inside a template literal: [undefined] is
    interpolated as the text "undefined". *)
Definition interpolate (v : option string) : string :=
  match v with Some s => s | None => "undefined" end.

(** [a.map(f)] where [f] also depends on when it is called: the callback gets
    the position of its call. *)
Fixpoint mapFrom {A B : Type} (f : nat -> A -> B) (i : nat) (a : list A) : list B :=
  match a with
  | [] => []
  | x :: a' => f i x :: mapFrom f (S i) a'
  end.

(** [s[0]]: the first code unit as a string, or [undefined]. *)
Definition charAt0 (s : string) : option string :=
  match s with
  | EmptyString => None
  | String c _ => Some (String c EmptyString)
  end.

End JS.

(* ================================================================== *)
(** ** The regular expressions of helpers.js *)
(* ================================================================== *)

Module RegExp.
Import JS.

(** A pattern is modelled by its matcher at a position: given the rest of
    the subject from that position, the number of code units the pattern
    consumes there, or [None].  Backtracking is resolved in each matcher
    (see the remarks there): every pattern of [helpers.js] has a single way
    to match at a position. *)
Definition matcher := string -> option nat.

(** [Canonicalize] of a case-insensitive pattern without the [u] flag (upper
    case of one code unit).  U+00B5 and U+00FF have their upper case outside
    Latin-1 and equal to no other canonical form of the range: they are
    their own class. *)
Definition Canonicalize (c : ascii) : ascii :=
  if between 97 122 c || (between 224 254 c && negb (code c =? 247))
  then ascii_of_nat (code c - 32)
  else c.

Fixpoint canon (s : string) : string :=
  match s with
  | EmptyString => EmptyString
  | String c s' => String (Canonicalize c) (canon s')
  end.

(** A literal under the [i] flag. *)
Definition literalCI (p : string) : matcher :=
  fun s => if String.prefix (canon p) (canon s) then Some (String.length p) else None.

(** A case-sensitive literal (also: a string given as pattern to [replace]). *)
Definition literal (p : string) : matcher :=
  fun s => if String.prefix p s then Some (String.length p) else None.

(** [p1|p2|...]: the first alternative, in order, that matches here. *)
Fixpoint alternatives (ps : list matcher) : matcher :=
  fun s =>
    match ps with
    | [] => None
    | p :: ps' => match p s with
                  | Some n => Some n
                  | None => alternatives ps' s
                  end
    end.

(** The code unit [c] does not occur, up to case, in the literal [p]
    ([free]), or not after its first code unit ([tailFree]). *)
Fixpoint without (c : ascii) (s : string) : bool :=
  match s with
  | EmptyString => true
  | String a s' => negb (Ascii.eqb a c) && without c s'
  end.

Definition free (c : ascii) (p : string) : bool := without (Canonicalize c) (canon p).

Definition tailFree (c : ascii) (p : string) : bool :=
  match canon p with
  | EmptyString => true
  | String _ t => without (Canonicalize c) t
  end.

(** Length of the longest run of code units satisfying [cls] at the head:
    what a greedy [cls*] consumes. *)
Fixpoint span (cls : ascii -> bool) (s : string) : nat :=
  match s with
  | String c s' => if cls c then S (span cls s') else 0
  | EmptyString => 0
  end.

(** [s.replace(re, rep)] for a pattern with the [g] flag: matches are taken
    left to right, the search resuming where the last match ended (or one
    code unit later after an empty match).  [skip] counts the code units of
    the current match still to be consumed. *)
Fixpoint replaceFrom (re : matcher) (rep : string) (skip : nat) (s : string) : string :=
  match s with
  | EmptyString =>
      match skip, re EmptyString with
      | 0, Some _ => rep
      | _, _ => EmptyString
      end
  | String c s' =>
      match skip with
      | S k => replaceFrom re rep k s'
      | 0 =>
          match re s with
          | Some (S k) => rep ++ replaceFrom re rep k s'
          | Some 0 => rep ++ String c (replaceFrom re rep 0 s')
          | None => String c (replaceFrom re rep 0 s')
          end
      end
  end.

Definition replaceAll (re : matcher) (rep : string) (s : string) : string :=
  replaceFrom re rep 0 s.

(** [s.replace(re, rep)] without the [g] flag, or with a string pattern:
    only the leftmost match is replaced. *)
Fixpoint replaceFirst (re : matcher) (rep : string) (s : string) : string :=
  match re s with
  | Some n => rep ++ drop n s
  | None =>
      match s with
      | EmptyString => EmptyString
      | String c s' => String c (replaceFirst re rep s')
      end
  end.

(** [s.replace(re, rep)] for a pattern that starts with [^] (no [m] flag):
    it can only match at the start of the subject. *)
Definition replaceAtStart (re : matcher) (rep : string) (s : string) : string :=
  match re s with
  | Some n => rep ++ drop n s
  | None => s
  end.

(** [/Dr\.|Prof\.|Professor|Mr\.|Ms\.|Mrs\./gi] *)
Definition honorifics : list string :=
  ["Dr."; "Prof."; "Professor"; "Mr."; "Ms."; "Mrs."].

Definition honorificRe : matcher := alternatives (map literalCI honorifics).

(** [/,\s*(Jr|Sr|III|II)\.?/gi].  The greedy [\s*] never has to give back
    what it took, since no alternative starts with white space; the
    alternatives are tried in order ([III] before [II]), and the optional
    period is taken when it is there. *)
Definition qualifiers : list string := ["Jr"; "Sr"; "III"; "II"].

Definition suffixRe : matcher :=
  fun s =>
    match s with
    | String c s1 =>
        if Ascii.eqb c "," then
          let n := span isWhiteSpace s1 in
          match alternatives (map literalCI qualifiers) (drop n s1) with
          | Some k =>
              Some (1 + n + k + (if startsWith (drop (n + k) s1) "." then 1 else 0))
          | None => None
          end
        else None
    | EmptyString => None
    end.

(** [/\s+/g] *)
Definition whitespaceRe : matcher :=
  fun s => match span isWhiteSpace s with 0 => None | n => Some n end.

(** [/^\s*[-...]\s*/] of [cleanTitle], after the [^].  The class holds the
    hyphen and the three code points U+00E2, U+20AC, U+00A2 that stand in
    the source; U+20AC is outside the modelled range. *)
Definition isBullet (c : ascii) : bool :=
  (code c =? 45) || (code c =? 226) || (code c =? 162).

Definition bulletRe : matcher :=
  fun s =>
    let n := span isWhiteSpace s in
    match drop n s with
    | String c s' => if isBullet c then Some (n + 1 + span isWhiteSpace s') else None
    | EmptyString => None
    end.

(** [/^(Phone|Tel|Office):\s*/i], after the [^]. *)
Definition phoneLabelRe : matcher :=
  fun s =>
    match alternatives (map literalCI ["Phone"; "Tel"; "Office"]) s with
    | Some k =>
        match drop k s with
        | String c s' =>
            if Ascii.eqb c ":" then Some (k + 1 + span isWhiteSpace s') else None
        | EmptyString => None
        end
    | None => None
    end.

(** [/[^\d\-\(\)\.\s\+]/g] *)
Definition isPhoneChar (c : ascii) : bool :=
  isDigit c || Ascii.eqb c "-" || Ascii.eqb c "(" || Ascii.eqb c ")"
  || Ascii.eqb c "." || isWhiteSpace c || Ascii.eqb c "+".

Definition nonPhoneRe : matcher :=
  fun s =>
    match s with
    | String c _ => if isPhoneChar c then None else Some 1
    | EmptyString => None
    end.

(** [.*?University[^|]*] at one start position: the lazy [.*?] stops at the
    first "University" it can reach without crossing a line terminator, then
    the greedy class runs up to the next pipe or the end. *)
Definition notPipe (c : ascii) : bool := negb (Ascii.eqb c "|").

Fixpoint universityAt (s : string) : option nat :=
  if String.prefix "University" s
  then Some (10 + span notPipe (drop 10 s))
  else match s with
       | EmptyString => None
       | String c s' =>
           if isLineTerminator c then None
           else match universityAt s' with
                | Some n => Some (S n)
                | None => None
                end
       end.

(** [s.match(re)] for a pattern without the [g] flag, reduced to the text of
    the leftmost match ([None] is [null]).  Here the only capture group
    spans the whole pattern, so this text is also [match[1]]. *)
Fixpoint exec (re : matcher) (s : string) : option string :=
  match re s with
  | Some n => Some (take n s)
  | None =>
      match s with
      | EmptyString => None
      | String _ s' => exec re s'
      end
  end.

End RegExp.

(* ================================================================== *)
(** ** helpers.js *)
(* ================================================================== *)

(** What a call does: it returns a value or throws. *)
Inductive Completion (A : Type) : Type :=
| Returns (v : A)
| Throws (error : string).
Arguments Returns {A} v.
Arguments Throws {A} error.

(** One entry of the profile-link inventory of a page. *)
Module Link.
Record ProfileLinkEntry : Type := Build {
  href : string;
  text : string;
  title : string
}.
End Link.

(** A raw candidate, as a dialect extractor reads it off the DOM. *)
Module Raw.
Record RawCandidate : Type := Build {
  name : string;
  title : string;
  email : string;
  phone : string;
  profileLink : string
}.
End Raw.

(** The final record.  [university] and [department] are fields of the
    extractor, [null] ([None]) until [initialize] has set them. *)
Module Faculty.
Record FacultyRecord : Type := Build {
  name : string;
  titles : list string;
  profileLink : string;
  email : string;
  emailConfidence : Q;
  emailSource : string;
  phone : string;
  university : option string;
  department : option string;
  extractionMethod : string;
  sourceUrl : string;
  scrapedAt : string
}.
End Faculty.

Module Helpers.
Import JS RegExp.

(** The two strings [calculateEmailConfidence] derives from its arguments. *)
Definition nameParts (name : string) : list string :=
  filter (fun part => 1 <? String.length part) (split " " (toLowerCase name)).

Definition emailLocal (email : string) : string :=
  toLowerCase (interpolate (at_ (split "@" email) 0)).

Definition calculateEmailConfidence (name email : string) : Q :=
  if isEmpty name || isEmpty email || (String.length email <? 5) then 0.1%Q
  else
    let nameParts := nameParts name in
    if length nameParts <? 2 then 0.3%Q
    else
      let firstName := interpolate (at_ nameParts 0) in
      let lastName := interpolate (at_ nameParts (length nameParts - 1)) in
      let emailLocal := emailLocal email in
      if String.eqb emailLocal (firstName ++ "." ++ lastName) then 0.95%Q
      else if String.eqb emailLocal (firstName ++ "." ++ interpolate (charAt0 lastName))
      then 0.85%Q
      else if String.eqb emailLocal (interpolate (charAt0 firstName) ++ "." ++ lastName)
      then 0.85%Q
      else if includes emailLocal firstName && includes emailLocal lastName then 0.75%Q
      else if includes emailLocal firstName then 0.6%Q
      else if includes emailLocal lastName then 0.5%Q
      else 0.1%Q.

(** The two predicates handed to [profileLinks.find]. *)
Definition textMatches (name : string) (link : Link.ProfileLinkEntry) : bool :=
  includes (toLowerCase (Link.text link)) (toLowerCase name)
  || includes (toLowerCase name) (toLowerCase (Link.text link)).

Definition urlMatches (firstName lastName : string) (link : Link.ProfileLinkEntry) : bool :=
  let url := toLowerCase (Link.href link) in
  (includes url firstName && includes url lastName)
  || includes url (firstName ++ "-" ++ lastName)
  || includes url (lastName ++ "-" ++ firstName).

Definition findProfileLink (name : string) (profileLinks : list Link.ProfileLinkEntry) : string :=
  if isEmpty name || (length profileLinks =? 0) then EmptyString
  else
    let nameParts := split " " (toLowerCase name) in
    let firstName := interpolate (at_ nameParts 0) in
    let lastName := interpolate (at_ nameParts (length nameParts - 1)) in
    match find (textMatches name) profileLinks with
    | Some exactMatch => Link.href exactMatch
    | None =>
        match find (urlMatches firstName lastName) profileLinks with
        | Some urlMatch => Link.href urlMatch
        | None => EmptyString
        end
    end.

(** The domain fragments of [getUniversityName], in the order of its tests. *)
Definition universityDomains : list (string * string) :=
  [ ("kansas", "University of Kansas");
    ("illinois", "University of Illinois");
    ("utah", "University of Utah");
    ("unf", "University of North Florida") ].

Section WithURL.

(** [new URL(url).hostname] belongs to the platform: [None] stands for the
    TypeError the constructor throws on a string that is no absolute URL. *)
Variable hostname : string -> option string.

Definition getUniversityName (url pageTitle : string) : Completion string :=
  match hostname url with
  | None => Throws "TypeError: Invalid URL"
  | Some h =>
      let domain := toLowerCase h in
      match find (fun entry => includes domain (fst entry)) universityDomains with
      | Some entry => Returns (snd entry)
      | None =>
          match
            (if includes pageTitle "University" then exec universityAt pageTitle else None)
          with
          | Some m => Returns (trim m)
          | None =>
              Returns (replaceFirst (literal ".edu") EmptyString
                         (replaceAtStart (literal "www.") EmptyString domain))
          end
      end
  end.

End WithURL.

Definition musicKeywords : list string :=
  [ "School of Music"; "College of Music"; "Department of Music";
    "Music Department"; "School of Fine Arts"; "College of Fine Arts" ].

Definition getDepartmentName (pageContent : string) : string :=
  match find (fun keyword => includes pageContent keyword) musicKeywords with
  | Some keyword => keyword
  | None => "Music Department"
  end.

Definition cleanName (name : string) : string :=
  if isEmpty name then EmptyString
  else
    trim
      (replaceAll whitespaceRe " "
         (replaceAll suffixRe EmptyString
            (replaceAll honorificRe EmptyString name))).

Definition cleanTitle (title : string) : string :=
  if isEmpty title then EmptyString
  else trim (replaceAll whitespaceRe " " (replaceAtStart bulletRe EmptyString title)).

Definition cleanEmail (email : string) : string :=
  if isEmpty email || negb (includes email "@") then EmptyString
  else trim (toLowerCase email).

Definition cleanPhone (phone : string) : string :=
  if isEmpty phone then EmptyString
  else
    trim
      (replaceAll nonPhoneRe EmptyString
         (replaceAtStart phoneLabelRe EmptyString phone)).

End Helpers.

(* ================================================================== *)
(** ** helpers.js, with the steps that can throw *)
(* ================================================================== *)

(** In [Helpers] an argument is a string and a value that is always there
    is taken as there.  Here the helpers are written once more with each
    step that can throw kept as such: the URL constructor, and reading a
    property of [undefined], which is what an argument may be, what [a[i]]
    is past the end of an array, and what [match[1]] is for a group that
    has not taken part.  [None] is [undefined]. *)
Module Throwing.
Import JS RegExp.

Definition bind {A B : Type} (c : Completion A) (k : A -> Completion B) : Completion B :=
  match c with
  | Returns v => k v
  | Throws e => Throws e
  end.

Notation "x <- c ;; k" := (bind c (fun x => k))
  (at level 61, c at next level, right associativity).

(** [!v] *)
Definition falsy (v : option string) : bool :=
  match v with
  | None => true
  | Some s => isEmpty s
  end.

(** [v.p] or [v.m(...)] for a [v] that may be [undefined]. *)
Definition property {A : Type} (v : option string) (p : string -> A) : Completion A :=
  match v with
  | Some s => Returns (p s)
  | None => Throws "TypeError: Cannot read properties of undefined"
  end.

(** A parameter with the default value [''] . *)
Definition orEmpty (v : option string) : string :=
  match v with
  | Some s => s
  | None => EmptyString
  end.

Definition calculateEmailConfidence (name email : option string) : Completion Q :=
  if falsy name || falsy email then Returns 0.1%Q
  else
    len <- property email String.length ;;
    if len <? 5 then Returns 0.1%Q
    else
      lower <- property name toLowerCase ;;
      let nameParts := filter (fun part => 1 <? String.length part) (split " " lower) in
      if length nameParts <? 2 then Returns 0.3%Q
      else
        let firstName := at_ nameParts 0 in
        let lastName := at_ nameParts (length nameParts - 1) in
        parts <- property email (split "@") ;;
        emailLocal <- property (at_ parts 0) toLowerCase ;;
        if String.eqb emailLocal (interpolate firstName ++ "." ++ interpolate lastName)
        then Returns 0.95%Q
        else
          lastInitial <- property lastName charAt0 ;;
          if String.eqb emailLocal (interpolate firstName ++ "." ++ interpolate lastInitial)
          then Returns 0.85%Q
          else
            firstInitial <- property firstName charAt0 ;;
            if String.eqb emailLocal
                 (interpolate firstInitial ++ "." ++ interpolate lastName)
            then Returns 0.85%Q
            else if includes emailLocal (interpolate firstName)
                    && includes emailLocal (interpolate lastName)
            then Returns 0.75%Q
            else if includes emailLocal (interpolate firstName) then Returns 0.6%Q
            else if includes emailLocal (interpolate lastName) then Returns 0.5%Q
            else Returns 0.1%Q.

(** The entries are those [extractAllProfileLinks] builds: their [href] and
    [text] are strings. *)
Definition findProfileLink (name : option string)
    (profileLinks : list Link.ProfileLinkEntry) : Completion string :=
  if falsy name || (length profileLinks =? 0) then Returns EmptyString
  else
    lower <- property name toLowerCase ;;
    let nameParts := split " " lower in
    let firstName := interpolate (at_ nameParts 0) in
    let lastName := interpolate (at_ nameParts (length nameParts - 1)) in
    match
      find (fun link =>
              includes (toLowerCase (Link.text link)) lower
              || includes lower (toLowerCase (Link.text link)))
           profileLinks
    with
    | Some exactMatch => Returns (Link.href exactMatch)
    | None =>
        match find (Helpers.urlMatches firstName lastName) profileLinks with
        | Some urlMatch => Returns (Link.href urlMatch)
        | None => Returns EmptyString
        end
    end.

(** [pageTitle.match(re)]: [null], or the array of the match and of its one
    group, which spans the pattern. *)
Definition matchUniversity (pageTitle : string) : option (list string) :=
  match exec universityAt pageTitle with
  | Some m => Some [m; m]
  | None => None
  end.

Definition getUniversityName (hostname : string -> option string)
    (url : string) (pageTitle : option string) : Completion string :=
  let pageTitle := orEmpty pageTitle in
  match hostname url with
  | None => Throws "TypeError: Invalid URL"
  | Some h =>
      let domain := toLowerCase h in
      match find (fun entry => includes domain (fst entry)) Helpers.universityDomains with
      | Some entry => Returns (snd entry)
      | None =>
          let fallback :=
            Returns (replaceFirst (literal ".edu") EmptyString
                       (replaceAtStart (literal "www.") EmptyString domain)) in
          if includes pageTitle "University" then
            match matchUniversity pageTitle with
            | Some groups => property (at_ groups 1) trim
            | None => fallback
            end
          else fallback
      end
  end.

Definition getDepartmentName (pageContent : option string) : Completion string :=
  let pageContent := orEmpty pageContent in
  match find (fun keyword => includes pageContent keyword) Helpers.musicKeywords with
  | Some keyword => Returns keyword
  | None => Returns "Music Department"
  end.

Definition cleanName (name : option string) : Completion string :=
  if falsy name then Returns EmptyString
  else
    property name
      (fun s =>
         trim (replaceAll whitespaceRe " "
                 (replaceAll suffixRe EmptyString (replaceAll honorificRe EmptyString s)))).

Definition cleanTitle (title : option string) : Completion string :=
  if falsy title then Returns EmptyString
  else
    property title
      (fun s => trim (replaceAll whitespaceRe " " (replaceAtStart bulletRe EmptyString s))).

Definition cleanEmail (email : option string) : Completion string :=
  if falsy email then Returns EmptyString
  else
    hasAt <- property email (fun s => includes s "@") ;;
    if negb hasAt then Returns EmptyString
    else property email (fun s => trim (toLowerCase s)).

Definition cleanPhone (phone : option string) : Completion string :=
  if falsy phone then Returns EmptyString
  else
    property phone
      (fun s =>
         trim (replaceAll nonPhoneRe EmptyString
                 (replaceAtStart phoneLabelRe EmptyString s))).

End Throwing.

(* ================================================================== *)
(** ** The URL constructor *)
(* ================================================================== *)

(** [new URL(url).hostname], for the examples of this file.  The constructor
    is the platform's parser.  Like it, this model first strips control
    characters and spaces from both ends and removes tabs and newlines, and
    throws on a string in which no scheme can be read (a letter, then
    letters, digits, [+], [-] or [.], then a colon).  For the schemes
    [http], [https], [ftp], [ws] and [wss] it then skips the slashes and
    reads the authority: an optional user information, a host name and an
    optional port; it throws when the host name is empty or holds a code
    point a host may not hold, and when the port is no number or is above
    65535.  For another scheme an authority is read after [//] only, and
    the host name is kept as written.  Hosts that need decoding (percent
    escapes, IP addresses, non-ASCII names) and [file] URLs are outside
    it.  The theorems on [getUniversityName] are stated for every hostname
    function; this one only serves their instances. *)
Module URL.
Import JS.

Definition isAlpha (c : ascii) : bool := between 65 90 c || between 97 122 c.

Definition isSchemeChar (c : ascii) : bool :=
  isAlpha c || isDigit c || Ascii.eqb c "+" || Ascii.eqb c "-" || Ascii.eqb c ".".

Definition isSlash (c : ascii) : bool := Ascii.eqb c "/" || Ascii.eqb c "\".

Definition endsAuthority (c : ascii) : bool :=
  isSlash c || Ascii.eqb c "?" || Ascii.eqb c "#".

(** For a scheme that is not special the backslash ends nothing. *)
Definition endsOpaqueAuthority (c : ascii) : bool :=
  Ascii.eqb c "/" || Ascii.eqb c "?" || Ascii.eqb c "#".

(** What follows the last [@] of the authority (all of it when there is none). *)
Fixpoint afterUserInfo (authority : string) : string :=
  match authority with
  | EmptyString => EmptyString
  | String c rest =>
      if Ascii.eqb c "@" && negb (includes rest "@") then rest
      else if includes authority "@" then afterUserInfo rest
      else authority
  end.

Definition isC0OrSpace (c : ascii) : bool := code c <=? 32.

Definition isTabOrNewline (c : ascii) : bool :=
  (code c =? 9) || (code c =? 10) || (code c =? 13).

Fixpoint stripStart (s : string) : string :=
  match s with
  | EmptyString => EmptyString
  | String c s' => if isC0OrSpace c then stripStart s' else s
  end.

Fixpoint stripEnd (s : string) : string :=
  match s with
  | EmptyString => EmptyString
  | String c s' =>
      match stripEnd s' with
      | EmptyString => if isC0OrSpace c then EmptyString else String c EmptyString
      | r => String c r
      end
  end.

Fixpoint removeTabsAndNewlines (s : string) : string :=
  match s with
  | EmptyString => EmptyString
  | String c s' =>
      if isTabOrNewline c then removeTabsAndNewlines s'
      else String c (removeTabsAndNewlines s')
  end.

Definition specialSchemes : list string := ["http"; "https"; "ftp"; "ws"; "wss"].

Definition isSpecial (scheme : string) : bool :=
  existsb (String.eqb (toLowerCase scheme)) specialSchemes.

(** The code points a host name may not hold, among those an authority
    can still hold once it is cut; for a special scheme the other control
    characters are among them. *)
Definition isForbiddenHost (special : bool) (c : ascii) : bool :=
  (code c =? 0) || (code c =? 32)
  || Ascii.eqb c "<" || Ascii.eqb c ">" || Ascii.eqb c "[" || Ascii.eqb c "\"
  || Ascii.eqb c "]" || Ascii.eqb c "^" || Ascii.eqb c "|"
  || (special && ((code c <=? 31) || (code c =? 127))).

Fixpoint hasForbiddenHost (special : bool) (s : string) : bool :=
  match s with
  | EmptyString => false
  | String c s' => isForbiddenHost special c || hasForbiddenHost special s'
  end.

(** The number a port reads as, when it is one. *)
Fixpoint portValue (acc : N) (s : string) : option N :=
  match s with
  | EmptyString => Some acc
  | String c s' =>
      if isDigit c then portValue (acc * 10 + (N_of_ascii c - 48))%N s' else None
  end.

Definition validPort (port : string) : bool :=
  match portValue 0%N port with
  | Some v => (v <=? 65535)%N
  | None => false
  end.

(** An empty host name is that of no special URL, and of no URL with user
    information or a port. *)
Definition hostOf (special : bool) (authority : string) : option string :=
  let hostPort := afterUserInfo authority in
  let host := take (RegExp.span (fun c => negb (Ascii.eqb c ":")) hostPort) hostPort in
  let port := drop (S (String.length host)) hostPort in
  if isEmpty host && (special || includes authority "@" || negb (isEmpty hostPort))
  then None
  else if hasForbiddenHost special host then None
  else if validPort port then Some (if special then toLowerCase host else host)
  else None.

Definition hostnameOf (url : string) : option string :=
  match url with
  | EmptyString => None
  | String c _ =>
      if isAlpha c then
        let n := RegExp.span isSchemeChar url in
        match drop n url with
        | String colon rest =>
            if Ascii.eqb colon ":" then
              if isSpecial (take n url) then
                let rest' := drop (RegExp.span isSlash rest) rest in
                hostOf true
                  (take (RegExp.span (fun c => negb (endsAuthority c)) rest') rest')
              else if startsWith rest "//" then
                let rest' := drop 2 rest in
                hostOf false
                  (take (RegExp.span (fun c => negb (endsOpaqueAuthority c)) rest') rest')
              else Some EmptyString
            else None
        | EmptyString => None
        end
      else None
  end.

Definition hostname (url : string) : option string :=
  hostnameOf (removeTabsAndNewlines (stripEnd (stripStart url))).

End URL.

(* ================================================================== *)
(** ** main.js *)
(* ================================================================== *)

Inductive Dialect : Type := Kansas | Illinois | Utah | Tabular.

(** The method tag each extractor hands to [processFacultyData]. *)
Definition tag (d : Dialect) : string :=
  match d with
  | Kansas => "kansas"
  | Illinois => "illinois"
  | Utah => "utah"
  | Tabular => "tabular"
  end.

Module Main.
Import JS RegExp Helpers.

(** The loaded page, as seen through Playwright.  The DOM itself stays with
    the browser: the page is given by the answers to the queries the
    extractor sends. *)
Record Page : Type := {
  (** [page.url()] *)
  url : string;
  (** [page.$(selector) !== null] *)
  present : string -> bool;
  (** the anchors mapped by [extractAllProfileLinks], before its filter *)
  anchors : list Link.ProfileLinkEntry;
  (** the rows or cards matched by an extractor, each mapped by the
      extractor's callback; [None] is the [null] of a table row with fewer
      than two cells *)
  mapped : Dialect -> list (option Raw.RawCandidate);
  (** the text found by the [page.evaluate] of [getUniversityName] *)
  universityText : string;
  (** the text found by the [page.evaluate] of [getDepartmentName] *)
  departmentText : string
}.

Record PlaywrightFacultyExtractor : Type := {
  page : Page;
  universityName : option string;
  departmentName : option string;
  profileLinks : list Link.ProfileLinkEntry
}.

Definition constructor (page : Page) : PlaywrightFacultyExtractor :=
  {| page := page; universityName := None; departmentName := None; profileLinks := [] |}.

Definition extractAllProfileLinks (p : Page) : list Link.ProfileLinkEntry :=
  filter (fun link => negb (isEmpty (Link.text link)) && (3 <? String.length (Link.text link)))
         (anchors p).

(** [initialize] awaits four operations of the page: [waitForLoadState],
    the two [evaluate] calls of the context extractors and the [$$eval] of
    [extractAllProfileLinks].  A [Page] holds the values they resolve to:
    a page on which one of them rejects (a timeout, a closed browser) is
    not a [Page], and [initialize] is modelled on the others only.  There
    the one step left that can throw is the URL constructor. *)
Definition initialize (hostname : string -> option string)
    (this : PlaywrightFacultyExtractor) (url : string)
  : Completion PlaywrightFacultyExtractor :=
  match getUniversityName hostname url (universityText (page this)) with
  | Throws e => Throws e
  | Returns u =>
      Returns {| page := page this;
                 universityName := Some u;
                 departmentName := Some (getDepartmentName (departmentText (page this)));
                 profileLinks := extractAllProfileLinks (page this) |}
  end.

(** The callback of the [map] in [processFacultyData]; [now] is the reading
    of [new Date().toISOString()] in this call. *)
Definition processPerson (this : PlaywrightFacultyExtractor) (method : string)
    (now : string) (person : Raw.RawCandidate) : Faculty.FacultyRecord :=
  let cleanedName := cleanName (Raw.name person) in
  let cleanedEmail := cleanEmail (Raw.email person) in
  let profileLink :=
    if isEmpty (Raw.profileLink person) && negb (isEmpty cleanedName)
    then findProfileLink cleanedName (profileLinks this)
    else Raw.profileLink person in
  let emailConfidence := calculateEmailConfidence cleanedName cleanedEmail in
  {| Faculty.name := cleanedName;
     Faculty.titles :=
       if isEmpty (Raw.title person) then [] else [cleanTitle (Raw.title person)];
     Faculty.profileLink := profileLink;
     Faculty.email := cleanedEmail;
     Faculty.emailConfidence := emailConfidence;
     Faculty.emailSource :=
       if gt emailConfidence 0.5%Q then "name-matched" else "generic";
     Faculty.phone := cleanPhone (Raw.phone person);
     Faculty.university := universityName this;
     Faculty.department := departmentName this;
     Faculty.extractionMethod := method;
     Faculty.sourceUrl := url (page this);
     Faculty.scrapedAt := now |}.

(** [clock i] is the time read while the candidate at index [i] is mapped. *)
Definition processFacultyData (this : PlaywrightFacultyExtractor) (clock : nat -> string)
    (rawFaculty : list Raw.RawCandidate) (method : string) : list Faculty.FacultyRecord :=
  filter
    (fun person =>
       negb (isEmpty (Faculty.name person)) && (2 <? String.length (Faculty.name person)))
    (mapFrom (fun i person => processPerson this method (clock i) person) 0 rawFaculty).

(** The filter that ends the browser-side callback of each extractor. *)
Definition hasName (person : option Raw.RawCandidate) : bool :=
  match person with
  | None => false
  | Some p => negb (isEmpty (Raw.name p))
  end.

Definition hasNameNotTitle (person : option Raw.RawCandidate) : bool :=
  match person with
  | None => false
  | Some p =>
      negb (isEmpty (Raw.name p))
      && negb (includes (Raw.name p) "Professor of")
      && negb (includes (Raw.name p) "Director of")
  end.

Fixpoint compact {A : Type} (l : list (option A)) : list A :=
  match l with
  | [] => []
  | Some x :: l' => x :: compact l'
  | None :: l' => compact l'
  end.

(** The raw candidates of a dialect on a page: what [$$eval] or [evaluate]
    returns in [extractKansasStyle] and its three siblings. *)
Definition rawFaculty (d : Dialect) (p : Page) : list Raw.RawCandidate :=
  compact (filter (match d with Illinois => hasNameNotTitle | _ => hasName end) (mapped p d)).

Section Extraction.

Variable this : PlaywrightFacultyExtractor.
Variable clock : nat -> string.

Definition extractKansasStyle : list Faculty.FacultyRecord :=
  processFacultyData this clock (rawFaculty Kansas (page this)) "kansas".

Definition extractIllinoisStyle : list Faculty.FacultyRecord :=
  processFacultyData this clock (rawFaculty Illinois (page this)) "illinois".

Definition extractUtahStyle : list Faculty.FacultyRecord :=
  processFacultyData this clock (rawFaculty Utah (page this)) "utah".

Definition extractTabularStyle : list Faculty.FacultyRecord :=
  processFacultyData this clock (rawFaculty Tabular (page this)) "tabular".

Definition extract (d : Dialect) : list Faculty.FacultyRecord :=
  match d with
  | Kansas => extractKansasStyle
  | Illinois => extractIllinoisStyle
  | Utah => extractUtahStyle
  | Tabular => extractTabularStyle
  end.

End Extraction.

(** The double quote, for the attribute selectors. *)
Definition dq : string := String (ascii_of_nat 34) EmptyString.

Definition kansasSelector : string := ".views-row".

Definition illinoisSelector : string :=
  "div[class*=" ++ dq ++ "person" ++ dq ++ "], .person-card, .faculty-card".

Definition utahSelector : string :=
  "a[href*=" ++ dq ++ ".php" ++ dq ++ "], table tr".

(** The decision of [detectAndExtract]. *)
Definition detect (p : Page) : Dialect :=
  if present p kansasSelector then Kansas
  else if present p illinoisSelector then Illinois
  else if present p utahSelector then Utah
  else Tabular.

Definition detectAndExtract (this : PlaywrightFacultyExtractor) (clock : nat -> string)
  : list Faculty.FacultyRecord :=
  extract this clock (detect (page this)).

(** [methodMap[extractionMethod]] in the request handler.  [methodMap] is an
    object literal: a key that is not one of its four own properties is
    looked up on [Object.prototype], whose properties are all truthy. *)
Inductive Property : Type :=
| own (d : Dialect)
| inherited (key : string).

Definition ObjectPrototype : list string :=
  [ "constructor"; "__defineGetter__"; "__defineSetter__"; "hasOwnProperty";
    "__lookupGetter__"; "__lookupSetter__"; "isPrototypeOf";
    "propertyIsEnumerable"; "toString"; "valueOf"; "__proto__"; "toLocaleString" ].

Definition methodMap (key : string) : option Property :=
  if String.eqb key "kansas" then Some (own Kansas)
  else if String.eqb key "illinois" then Some (own Illinois)
  else if String.eqb key "utah" then Some (own Utah)
  else if String.eqb key "tabular" then Some (own Tabular)
  else if existsb (String.eqb key) ObjectPrototype then Some (inherited key)
  else None.

(** What the request handler calls to get [faculty]. *)
Inductive Selection : Type :=
| runDetection
| runExtractor (d : Dialect)
| callInherited (key : string).

Definition select (extractionMethod : string) : Selection :=
  if String.eqb extractionMethod "auto" then runDetection
  else match methodMap extractionMethod with
       | Some (own d) => runExtractor d
       | Some (inherited key) => callInherited key
       | None => runDetection
       end.

(** The dialect whose extractor runs, if one does. *)
Definition selectedDialect (extractionMethod : string) (p : Page) : option Dialect :=
  match select extractionMethod with
  | runDetection => Some (detect p)
  | runExtractor d => Some d
  | callInherited _ => None
  end.

End Main.

(* ================================================================== *)
(** ** Vocabulary of the specification *)
(* ================================================================== *)

Module Spec.
Import JS RegExp Helpers.

(** Splitting on white space: every white-space code unit separates. *)
Fixpoint splitWhitespace (s : string) : list string :=
  match s with
  | EmptyString => [EmptyString]
  | String c s' =>
      if isWhiteSpace c then EmptyString :: splitWhitespace s'
      else match splitWhitespace s' with
           | h :: t => String c h :: t
           | [] => [String c EmptyString]
           end
  end.

(** The usable tokens of a name: its case-folded white-space tokens of more
    than one code unit. *)
Definition usableTokens (name : string) : list string :=
  filter (fun token => 1 <? String.length token) (splitWhitespace (toLowerCase name)).

(** The ordered pattern checks of the confidence scorer, each with its
    score, over the local part and the first and last token. *)
Definition check : Type := string -> string -> string -> bool.

Definition orderedChecks : list (check * Q) :=
  [ (fun l f n => String.eqb l (f ++ "." ++ n), 0.95%Q);
    (fun l f n => String.eqb l (f ++ "." ++ take 1 n), 0.85%Q);
    (fun l f n => String.eqb l (take 1 f ++ "." ++ n), 0.85%Q);
    (fun l f n => includes l f && includes l n, 0.75%Q);
    (fun l f n => includes l f, 0.6%Q);
    (fun l f n => includes l n, 0.5%Q) ].

(** The score of the first check that holds, 0.1 when none does. *)
Fixpoint firstMatch (checks : list (check * Q)) (l f n : string) : Q :=
  match checks with
  | [] => 0.1%Q
  | (c, score) :: rest => if c l f n then score else firstMatch rest l f n
  end.

(** [x] is the first element of [l], in order, that satisfies [P]. *)
Definition firstSatisfying {A : Type} (P : A -> bool) (l : list A) (x : A) : Prop :=
  exists before after,
    l = (before ++ x :: after)%list /\ P x = true /\ forall y, In y before -> P y = false.

(** Equality up to case. *)
Definition sameUpToCase (a b : string) : bool := String.eqb (canon a) (canon b).

(** An honorific token, in any case. *)
Definition isHonorific (h : string) : bool :=
  existsb (sameUpToCase h) ["Dr."; "Prof."; "Professor"; "Mr."; "Ms."; "Mrs."].

(** A suffix qualifier, in any case, with or without its period. *)
Definition isSuffixQualifier (q : string) : bool :=
  existsb (sameUpToCase q)
    [", Jr"; ", Sr"; ", II"; ", III"; ", Jr."; ", Sr."; ", II."; ", III."].

(** Every code unit of [s] is in the class [cls]. *)
Fixpoint every (cls : ascii -> bool) (s : string) : bool :=
  match s with
  | EmptyString => true
  | String c s' => cls c && every cls s'
  end.

(** No white space at the start. *)
Definition noLeadingWhiteSpace (s : string) : bool :=
  match s with
  | EmptyString => true
  | String c _ => negb (isWhiteSpace c)
  end.

(** All white space is single spaces: every white-space code unit is a
    space, and none is followed by another. *)
Fixpoint singleSpaced (s : string) : bool :=
  match s with
  | EmptyString => true
  | String c s' =>
      (if isWhiteSpace c then Ascii.eqb c " " && noLeadingWhiteSpace s' else true)
      && singleSpaced s'
  end.

Fixpoint lastChar (s : string) : option ascii :=
  match s with
  | EmptyString => None
  | String c EmptyString => Some c
  | String _ s' => lastChar s'
  end.

(** No white space at either end. *)
Definition trimmed (s : string) : bool :=
  noLeadingWhiteSpace s
  && match lastChar s with
     | Some d => negb (isWhiteSpace d)
     | None => true
     end.

(** The last resort of [getUniversityName] in the words of the
    specification: the host name without a leading "www." and without a
    trailing ".edu". *)
Definition endsWith (s suffix : string) : bool :=
  (String.length suffix <=? String.length s)
  && String.eqb (drop (String.length s - String.length suffix) s) suffix.

Definition stripLeading (p s : string) : string :=
  if startsWith s p then drop (String.length p) s else s.

Definition stripTrailing (suffix s : string) : string :=
  if endsWith s suffix then take (String.length s - String.length suffix) s else s.

Definition hostWithoutWwwAndEdu (host : string) : string :=
  stripTrailing ".edu" (stripLeading "www." host).

(** A match of the pattern of [getUniversityName] in a page title, written
    out: the title is [before], the match and [after], and the match is
    [lead], "University" and [tail].  The match is the leftmost: [before]
    is empty or ends with a line terminator, and holds no "University".
    The stretch [lead] is the shortest: it holds no line terminator, and no
    "University" ends before the one that follows it.  The stretch [tail]
    is the longest without a pipe: [after] is empty or starts with one. *)
Definition universityMatch (pageTitle before lead tail after : string) : Prop :=
  pageTitle = before ++ (lead ++ "University" ++ tail) ++ after
  /\ (before = "" \/ exists c, lastChar before = Some c /\ isLineTerminator c = true)
  /\ includes before "University" = false
  /\ every (fun c => negb (isLineTerminator c)) lead = true
  /\ includes (lead ++ "Universit") "University" = false
  /\ every notPipe tail = true
  /\ (after = "" \/ startsWith after "|" = true).

(** The digits of a text, in order. *)
Fixpoint digits (s : string) : string :=
  match s with
  | EmptyString => EmptyString
  | String c s' => if isDigit c then String c (digits s') else digits s'
  end.

End Spec.

(* ================================================================== *)
(** ** The scenarios of the specification *)
(* ================================================================== *)

Module Scenario.
Import JS Helpers Main.

(** The Kansas row of the end-to-end scenario. *)
Definition johnDoe (phone : string) : Raw.RawCandidate :=
  {| Raw.name := "Dr. John Doe";
     Raw.title := "Associate Professor";
     Raw.email := "jdoe@school.edu";
     Raw.phone := phone;
     Raw.profileLink := "" |}.

Definition johnDoeLink (title : string) : Link.ProfileLinkEntry :=
  {| Link.href := "/people/john-doe"; Link.text := "John Doe"; Link.title := title |}.

(** A page with that one row and that one link. *)
Definition kansasPage : Page :=
  {| url := "https://music.school.edu/people";
     present := fun selector => String.eqb selector kansasSelector;
     anchors := [johnDoeLink ""];
     mapped := fun d => match d with Kansas => [Some (johnDoe "")] | _ => [] end;
     universityText := "Faculty Directory";
     departmentText := "School of Music" |}.

Definition kansasExtractor : PlaywrightFacultyExtractor :=
  match initialize URL.hostname (constructor kansasPage) (url kansasPage) with
  | Returns this => this
  | Throws _ => constructor kansasPage
  end.

Definition midnight : nat -> string := fun _ => "2024-01-01T00:00:00.000Z".

(** The record the processor makes of that row. *)
Definition johnDoeRecord : Faculty.FacultyRecord :=
  processPerson kansasExtractor "kansas" (midnight 0) (johnDoe "").

(** A candidate with nothing but a name. *)
Definition named (name : string) : Raw.RawCandidate :=
  {| Raw.name := name; Raw.title := ""; Raw.email := ""; Raw.phone := "";
     Raw.profileLink := "" |}.

Definition janeSmithLink : Link.ProfileLinkEntry :=
  {| Link.href := "/people/jsmith"; Link.text := "Jane Smith"; Link.title := "" |}.

End Scenario.

(* ================================================================== *)
(** ** Code units above U+00FF *)
(* ================================================================== *)

(** The scorer and [cleanName] once more, over sequences of 16-bit code
    units, for arguments that hold code units above U+00FF.  The one thing
    that changes there is that [toLowerCase] may lengthen a text: U+0130
    (capital I with dot above) becomes U+0069 U+0307.  The table of
    [toLowerUnit] is that of Latin-1 with this one entry added; Unicode has
    more cased letters above U+00FF, which the texts used here do not
    hold. *)
Module Utf16.

Local Open Scope N_scope.
Local Open Scope list_scope.

Definition text : Type := list N.

(** A Latin-1 text as code units. *)
Definition ofString (s : string) : text :=
  map N_of_ascii (list_ascii_of_string s).

Definition between (lo hi c : N) : bool := (lo <=? c) && (c <=? hi).

(** WhiteSpace and LineTerminator of ECMAScript. *)
Definition isWhiteSpace (c : N) : bool :=
  between 9 13 c || (c =? 32) || (c =? 160) || (c =? 5760)
  || between 8192 8202 c || (c =? 8232) || (c =? 8233) || (c =? 8239)
  || (c =? 8287) || (c =? 12288) || (c =? 65279).

Definition toLowerUnit (c : N) : text :=
  if between 65 90 c || (between 192 222 c && negb (c =? 215)) then [c + 32]
  else if c =? 304 then [105; 775]
  else [c].

Definition toLowerCase (s : text) : text := flat_map toLowerUnit s.

Definition isEmpty (s : text) : bool :=
  match s with [] => true | _ :: _ => false end.

Fixpoint eqb (a b : text) : bool :=
  match a, b with
  | [], [] => true
  | x :: a', y :: b' => (x =? y) && eqb a' b'
  | _, _ => false
  end.

Fixpoint prefix (p s : text) : bool :=
  match p, s with
  | [], _ => true
  | x :: p', y :: s' => (x =? y) && prefix p' s'
  | _ :: _, [] => false
  end.

Fixpoint includes (s t : text) : bool :=
  prefix t s ||
  match s with
  | [] => false
  | _ :: s' => includes s' t
  end.

Fixpoint drop (n : nat) (s : text) : text :=
  match n, s with
  | S n', _ :: s' => drop n' s'
  | _, _ => s
  end.

Fixpoint trimStart (s : text) : text :=
  match s with
  | [] => []
  | c :: s' => if isWhiteSpace c then trimStart s' else s
  end.

Fixpoint trimEnd (s : text) : text :=
  match s with
  | [] => []
  | c :: s' =>
      match trimEnd s' with
      | [] => if isWhiteSpace c then [] else [c]
      | r => c :: r
      end
  end.

Definition trim (s : text) : text := trimEnd (trimStart s).

Fixpoint splitBy (sep : N -> bool) (s : text) : list text :=
  match s with
  | [] => [[]]
  | c :: s' =>
      if sep c then [] :: splitBy sep s'
      else match splitBy sep s' with
           | h :: t => (c :: h) :: t
           | [] => [[c]]
           end
  end.

(** [s.split(sep)] for a separator of one code unit. *)
Definition split (sep : N) (s : text) : list text := splitBy (N.eqb sep) s.

Definition interpolate (v : option text) : text :=
  match v with Some s => s | None => ofString "undefined" end.

Definition charAt0 (s : text) : option text :=
  match s with [] => None | c :: _ => Some [c] end.

(** The patterns of [cleanName], as in [RegExp]. *)
Definition matcher : Type := text -> option nat.

Definition Canonicalize (c : N) : N :=
  if between 97 122 c || (between 224 254 c && negb (c =? 247)) then c - 32 else c.

Definition literalCI (p : string) : matcher :=
  fun s =>
    if prefix (map Canonicalize (ofString p)) (map Canonicalize s)
    then Some (String.length p) else None.

Fixpoint alternatives (ps : list matcher) : matcher :=
  fun s =>
    match ps with
    | [] => None
    | p :: ps' => match p s with
                  | Some n => Some n
                  | None => alternatives ps' s
                  end
    end.

Fixpoint span (cls : N -> bool) (s : text) : nat :=
  match s with
  | c :: s' => if cls c then S (span cls s') else 0%nat
  | [] => 0%nat
  end.

Fixpoint replaceFrom (re : matcher) (rep : text) (skip : nat) (s : text) : text :=
  match s with
  | [] =>
      match skip, re [] with
      | 0%nat, Some _ => rep
      | _, _ => []
      end
  | c :: s' =>
      match skip with
      | S k => replaceFrom re rep k s'
      | 0%nat =>
          match re s with
          | Some (S k) => rep ++ replaceFrom re rep k s'
          | Some 0%nat => rep ++ c :: replaceFrom re rep 0 s'
          | None => c :: replaceFrom re rep 0 s'
          end
      end
  end.

Definition replaceAll (re : matcher) (rep : text) (s : text) : text :=
  replaceFrom re rep 0 s.

Definition honorificRe : matcher := alternatives (map literalCI RegExp.honorifics).

Definition suffixRe : matcher :=
  fun s =>
    match s with
    | c :: s1 =>
        if c =? 44 then
          let n := span isWhiteSpace s1 in
          match alternatives (map literalCI RegExp.qualifiers) (drop n s1) with
          | Some k =>
              Some (1 + n + k + (if prefix [46%N] (drop (n + k) s1) then 1 else 0))%nat
          | None => None
          end
        else None
    | [] => None
    end.

Definition whitespaceRe : matcher :=
  fun s => match span isWhiteSpace s with 0%nat => None | n => Some n end.

Definition cleanName (name : text) : text :=
  if isEmpty name then []
  else
    trim
      (replaceAll whitespaceRe [32]
         (replaceAll suffixRe []
            (replaceAll honorificRe [] name))).

Definition nameParts (name : text) : list text :=
  filter (fun part => (1 <? length part)%nat) (split 32 (toLowerCase name)).

Definition emailLocal (email : text) : text :=
  toLowerCase (interpolate (nth_error (split 64 email) 0)).

Definition calculateEmailConfidence (name email : text) : Q :=
  if isEmpty name || isEmpty email || (length email <? 5)%nat then 0.1%Q
  else
    let nameParts := nameParts name in
    if (length nameParts <? 2)%nat then 0.3%Q
    else
      let firstName := interpolate (nth_error nameParts 0) in
      let lastName := interpolate (nth_error nameParts (length nameParts - 1)) in
      let emailLocal := emailLocal email in
      if eqb emailLocal (firstName ++ [46] ++ lastName) then 0.95%Q
      else if eqb emailLocal (firstName ++ [46] ++ interpolate (charAt0 lastName))
      then 0.85%Q
      else if eqb emailLocal (interpolate (charAt0 firstName) ++ [46] ++ lastName)
      then 0.85%Q
      else if includes emailLocal firstName && includes emailLocal lastName then 0.75%Q
      else if includes emailLocal firstName then 0.6%Q
      else if includes emailLocal lastName then 0.5%Q
      else 0.1%Q.

(** The usable tokens of a name, as in [Spec]. *)
Definition usableTokens (name : text) : list text :=
  filter (fun token => (1 <? length token)%nat) (splitBy isWhiteSpace (toLowerCase name)).

(** The name "i" U+0307 " ab" and the email U+0130 ".ab". *)
Definition dottedName : text := [105; 775; 32; 97; 98].

Definition dottedEmail : text := [304; 46; 97; 98].

End Utf16.

(* ================================================================== *)
(** ** Tactics *)
(* ================================================================== *)

(** Facts on single code units, checked on each of them. *)
Ltac each_code_unit c :=
  destruct c as [[] [] [] [] [] [] [] []]; vm_compute; try reflexivity; try discriminate.

(** A fact on a white-space code unit [c], [H] saying that it is one,
    checked on each of them. *)
Ltac each_whitespace c H :=
  destruct c as [[] [] [] [] [] [] [] []];
  try (vm_compute in H; discriminate H); reflexivity.

(** The code units of a text whose canonical form is known, one at a time;
    [inv] gives the code units with a given canonical form. *)
Ltac canon_cases inv H :=
  repeat match type of H with
         | RegExp.canon ?q = String _ _ =>
             let c := fresh "c" in
             let Hc := fresh "Hc" in
             destruct q as [|c q]; [discriminate H|];
             cbn [RegExp.canon] in H; injection H as Hc H;
             destruct (inv _ _ Hc) as [-> | ->];
             vm_compute in Hc; try discriminate Hc; clear Hc
         | RegExp.canon ?q = EmptyString =>
             destruct q; [clear H | discriminate H]
         end.

(* ================================================================== *)
(** ** Basic facts on strings *)
(* ================================================================== *)

Import JS RegExp Helpers Main.

Section StringFacts.

Lemma append_nil_r (s : string) : s ++ "" = s.
Proof. induction s as [|c s IH]; simpl; [reflexivity | now rewrite IH]. Qed.

Lemma append_assoc (a b c : string) : (a ++ b) ++ c = a ++ (b ++ c).
Proof. induction a as [|x a IH]; simpl; [reflexivity | now rewrite IH]. Qed.

Lemma length_append (a b : string) :
  String.length (a ++ b) = String.length a + String.length b.
Proof. induction a as [|x a IH]; simpl; [reflexivity | now rewrite IH]. Qed.

Lemma isEmpty_false (s : string) : isEmpty s = false <-> s <> "".
Proof. destruct s; simpl; split; congruence. Qed.

Lemma drop_length (n : nat) (s : string) :
  String.length (drop n s) = String.length s - n.
Proof.
  revert s; induction n as [|n IH]; intros [|c s]; simpl; try reflexivity.
  apply IH.
Qed.

Lemma drop_app (a b : string) : drop (String.length a) (a ++ b) = b.
Proof. induction a as [|x a IH]; simpl; [reflexivity | exact IH]. Qed.

Lemma drop_app_le (n : nat) (a b : string) :
  n <= String.length a -> drop n (a ++ b) = drop n a ++ b.
Proof.
  revert a; induction n as [|n IH]; intros [|x a] H; simpl in *;
    try reflexivity; try lia.
  apply IH; lia.
Qed.

Lemma take_drop (n : nat) (s : string) : take n s ++ drop n s = s.
Proof.
  revert s; induction n as [|n IH]; intros [|c s]; simpl; try reflexivity.
  now rewrite IH.
Qed.

Lemma prefix_inv (p s : string) :
  String.prefix p s = true -> s = p ++ drop (String.length p) s.
Proof.
  revert s; induction p as [|c p IH]; intros [|d s] H; simpl in *;
    try reflexivity; try discriminate.
  destruct (ascii_dec c d); [subst; f_equal; now apply IH | discriminate].
Qed.

Lemma prefix_length (p s : string) :
  String.prefix p s = true -> String.length p <= String.length s.
Proof.
  intros H. rewrite (prefix_inv _ _ H), length_append. lia.
Qed.

End StringFacts.

(** Arrays of strings: the first and the last element. *)
Lemma at_first (l : list string) :
  l <> [] -> interpolate (at_ l 0) = hd "" l.
Proof. destruct l; [congruence | reflexivity]. Qed.

Lemma at_last (l : list string) :
  l <> [] -> interpolate (at_ l (length l - 1)) = last l "".
Proof.
  induction l as [|x l IH]; [congruence|]. intros _.
  destruct l as [|y l]; [reflexivity|].
  replace (length (x :: y :: l) - 1) with (S (length (y :: l) - 1)) by (simpl; lia).
  unfold at_ in *. simpl nth_error. simpl last.
  apply IH. discriminate.
Qed.

(* ================================================================== *)
(** ** The record processor *)
(* ================================================================== *)

Import Spec Scenario.

Lemma find_first {A : Type} (P : A -> bool) (l : list A) (x : A) :
  firstSatisfying P l x -> find P l = Some x.
Proof.
  intros (before & after & -> & Hx & Hb).
  induction before as [|y before IH]; simpl.
  - now rewrite Hx.
  - rewrite (Hb y (or_introl eq_refl)). apply IH. intros z Hz. apply Hb. now right.
Qed.

Lemma find_none_all {A : Type} (P : A -> bool) (l : list A) :
  (forall y, In y l -> P y = false) -> find P l = None.
Proof.
  induction l as [|y l IH]; intros H; simpl; [reflexivity|].
  rewrite (H y (or_introl eq_refl)). apply IH. intros z Hz. apply H. now right.
Qed.

Lemma split_not_nil (sep : ascii) (s : string) : split sep s <> [].
Proof.
  induction s as [|c s IH]; simpl; [discriminate|].
  destruct (Ascii.eqb c sep); [discriminate|].
  destruct (split sep s); [congruence | discriminate].
Qed.

Lemma In_mapFrom {A B : Type} (f : nat -> A -> B) (l : list A) (i : nat) (y : B) :
  In y (mapFrom f i l) -> exists j x, In x l /\ y = f j x.
Proof.
  revert i; induction l as [|x l IH]; intros i H; simpl in H; [contradiction|].
  destruct H as [<- | H].
  - exists i, x. split; [now left | reflexivity].
  - destruct (IH _ H) as (j & z & Hz & ->). exists j, z. split; [now right | reflexivity].
Qed.

Lemma gt_spec (a b : Q) : gt a b = true <-> (b < a)%Q.
Proof.
  unfold gt. rewrite negb_true_iff. split; intros H.
  - apply Qnot_le_lt. intros Hle. apply Qle_bool_iff in Hle. congruence.
  - destruct (Qle_bool a b) eqn:E; [|reflexivity].
    apply Qle_bool_iff in E. exfalso. exact (Qlt_not_le _ _ H E).
Qed.

Lemma kept_names (this : PlaywrightFacultyExtractor) (clock : nat -> string)
    (method : string) (raw : list Raw.RawCandidate) :
  map Faculty.name (processFacultyData this clock raw method)
  = filter (fun n => 2 <? String.length n) (map (fun p => cleanName (Raw.name p)) raw).
Proof.
  unfold processFacultyData.
  set (keep := fun person : Faculty.FacultyRecord => _).
  set (f := fun (i : nat) (person : Raw.RawCandidate) => _).
  enough (H : forall i, map Faculty.name (filter keep (mapFrom f i raw))
                        = filter (fun n => 2 <? String.length n)
                                 (map (fun p => cleanName (Raw.name p)) raw))
    by apply H.
  induction raw as [|p raw IH]; intros i; [reflexivity|].
  cbn [mapFrom map filter].
  assert (Hname : Faculty.name (f i p) = cleanName (Raw.name p)) by reflexivity.
  assert (Hkeep : keep (f i p) = (2 <? String.length (cleanName (Raw.name p)))).
  { unfold keep. rewrite Hname. now destruct (cleanName (Raw.name p)). }
  rewrite Hkeep.
  destruct (2 <? String.length (cleanName (Raw.name p)));
    cbn [map]; [rewrite Hname; f_equal|]; apply IH.
Qed.

(** C1, as the code has it: the Kansas row of the end-to-end scenario, on a
    page whose profile-link inventory is the one link to John Doe, gives
    exactly one record, named "John Doe", with profile link
    "/people/john-doe" and extraction method "kansas"; its email confidence
    is 0.5 (the local part "jdoe" only contains the last name), hence its
    email source is "generic". *)
Theorem C1_kansas_scenario :
  forall (this : PlaywrightFacultyExtractor) (clock : nat -> string)
         (phone linkTitle : string),
    rawFaculty Kansas (page this) = [johnDoe phone] ->
    profileLinks this = [johnDoeLink linkTitle] ->
    exists r,
      extractKansasStyle this clock = [r]
      /\ Faculty.name r = "John Doe"
      /\ Faculty.profileLink r = "/people/john-doe"
      /\ Faculty.emailConfidence r = 0.5%Q
      /\ Faculty.emailSource r = "generic"
      /\ Faculty.extractionMethod r = "kansas".
Proof.
  intros this clock phone linkTitle Hrows Hlinks.
  exists (processPerson this "kansas" (clock 0) (johnDoe phone)).
  split.
  - unfold extractKansasStyle, processFacultyData. rewrite Hrows. reflexivity.
  - unfold processPerson. rewrite Hlinks. repeat split; reflexivity.
Qed.

Lemma C1_kansas_scenario_witness :
  exists r,
    extractKansasStyle kansasExtractor midnight = [r]
    /\ Faculty.name r = "John Doe"
    /\ Faculty.profileLink r = "/people/john-doe"
    /\ Faculty.emailConfidence r = 0.5%Q
    /\ Faculty.emailSource r = "generic"
    /\ Faculty.extractionMethod r = "kansas".
Proof.
  apply (C1_kansas_scenario kansasExtractor midnight "" ""); reflexivity.
Defined.

(** C1 as stated fails: in the scenario the one record emitted has neither
    confidence 0.85 nor source "name-matched". *)
Lemma C1_counterexample :
  rawFaculty Kansas (page kansasExtractor) = [johnDoe ""]
  /\ profileLinks kansasExtractor = [johnDoeLink ""]
  /\ ~ exists r,
         extractKansasStyle kansasExtractor midnight = [r]
         /\ Faculty.name r = "John Doe"
         /\ Faculty.profileLink r = "/people/john-doe"
         /\ (Faculty.emailConfidence r == 0.85)%Q
         /\ Faculty.emailSource r = "name-matched"
         /\ Faculty.extractionMethod r = "kansas".
Proof.
  split; [reflexivity|]. split; [reflexivity|].
  intros (r & Hr & _ & _ & _ & Hsrc & _).
  vm_compute in Hr. injection Hr as <-. discriminate Hsrc.
Qed.

(** C2: every record the record processor emits has a non-empty name of
    more than 2 characters, and its email source is "name-matched" exactly
    when its confidence is greater than 0.5; the names emitted are, in
    order, the cleaned names of more than 2 characters, so that a candidate
    named "Jo" is dropped and one named "Jon" is kept. *)
Theorem C2_record_invariant :
  forall (this : PlaywrightFacultyExtractor) (clock : nat -> string)
         (raw : list Raw.RawCandidate) (method : string),
    (forall r, In r (processFacultyData this clock raw method) ->
       Faculty.name r <> ""
       /\ 2 < String.length (Faculty.name r)
       /\ (Faculty.emailSource r = "name-matched" <-> (0.5 < Faculty.emailConfidence r)%Q))
    /\ map Faculty.name (processFacultyData this clock raw method)
       = filter (fun n => 2 <? String.length n)
                (map (fun p => cleanName (Raw.name p)) raw)
    /\ processFacultyData this clock [named "Jo"] method = []
    /\ map Faculty.name (processFacultyData this clock [named "Jon"] method) = ["Jon"].
Proof.
  intros this clock raw method. split; [|split; [apply kept_names | split; reflexivity]].
  intros r Hr. unfold processFacultyData in Hr.
  apply filter_In in Hr. destruct Hr as [Hin Hkeep].
  apply andb_true_iff in Hkeep. destruct Hkeep as [Hne Hlen].
  apply negb_true_iff, isEmpty_false in Hne. apply Nat.ltb_lt in Hlen.
  split; [exact Hne | split; [exact Hlen|]].
  apply In_mapFrom in Hin. destruct Hin as (j & p & _ & ->).
  unfold processPerson; cbn [Faculty.emailSource Faculty.emailConfidence].
  rewrite <- gt_spec.
  destruct (gt _ _); split; intros H; try reflexivity; discriminate.
Qed.

Lemma C2_record_invariant_witness :
  Faculty.name (processPerson kansasExtractor "kansas" (midnight 0) (johnDoe "")) <> ""
  /\ 2 < String.length (Faculty.name (processPerson kansasExtractor "kansas" (midnight 0) (johnDoe "")))
  /\ (Faculty.emailSource (processPerson kansasExtractor "kansas" (midnight 0) (johnDoe "")) = "name-matched"
      <-> (0.5 < Faculty.emailConfidence (processPerson kansasExtractor "kansas" (midnight 0) (johnDoe "")))%Q).
Proof.
  apply (proj1 (C2_record_invariant kansasExtractor midnight [johnDoe ""] "kansas")).
  left. reflexivity.
Defined.

(* ================================================================== *)
(** ** Dialect selection *)
(* ================================================================== *)

Lemma select_own (d : Dialect) : select (tag d) = runExtractor d.
Proof. destruct d; reflexivity. Qed.

Lemma select_unknown (extractionMethod : string) :
  methodMap extractionMethod = None -> select extractionMethod = runDetection.
Proof.
  intros H. unfold select. rewrite H. now destruct (String.eqb extractionMethod "auto").
Qed.

(** C5: the detector is a function of the three presence checks, taken in
    the order Kansas, Illinois, Utah, with Tabular as the default, so a page
    with both a Kansas row and an Illinois card is Kansas; "auto" and every
    override that is no property of the method map run the detector, and
    the four dialect names run their extractor.  The override
    "constructor", which is no dialect name, does not fall back to
    detection: the lookup finds it on the prototype of the method map. *)
Theorem C5_dialect_selection :
  (forall p : Page,
     (present p kansasSelector = true -> detect p = Kansas)
     /\ (present p kansasSelector = false -> present p illinoisSelector = true ->
         detect p = Illinois)
     /\ (present p kansasSelector = false -> present p illinoisSelector = false ->
         present p utahSelector = true -> detect p = Utah)
     /\ (present p kansasSelector = false -> present p illinoisSelector = false ->
         present p utahSelector = false -> detect p = Tabular))
  /\ (forall p : Page,
        present p kansasSelector = true -> present p illinoisSelector = true ->
        selectedDialect "auto" p = Some Kansas)
  /\ (forall (d : Dialect) (p : Page), selectedDialect (tag d) p = Some d)
  /\ (forall (extractionMethod : string) (p : Page),
        methodMap extractionMethod = None ->
        selectedDialect extractionMethod p = Some (detect p))
  /\ (forall p : Page,
        methodMap "constructor" = Some (inherited "constructor")
        /\ select "constructor" = callInherited "constructor"
        /\ selectedDialect "constructor" p = None).
Proof.
  split; [|split; [|split; [|split]]].
  - intros p. unfold detect. repeat split; intros; repeat
      match goal with H : present _ _ = _ |- _ => rewrite H; clear H end; reflexivity.
  - intros p Hk _. unfold selectedDialect, detect; simpl. now rewrite Hk.
  - intros d p. unfold selectedDialect. now rewrite select_own.
  - intros m p H. unfold selectedDialect. now rewrite (select_unknown _ H).
  - intros p. repeat split.
Qed.

(* ================================================================== *)
(** ** The profile-link resolver *)
(* ================================================================== *)

(** The first and last token of a name, as the resolver takes them. *)
Lemma resolver_tokens (name : string) :
  let parts := split " " (toLowerCase name) in
  interpolate (at_ parts 0) = hd "" parts
  /\ interpolate (at_ parts (length parts - 1)) = last parts "".
Proof.
  intros parts. split; [apply at_first | apply at_last]; apply split_not_nil.
Qed.

Lemma findProfileLink_steps (name : string) (links : list Link.ProfileLinkEntry) :
  name <> "" ->
  findProfileLink name links =
    match find (textMatches name) links with
    | Some l => Link.href l
    | None =>
        match find (urlMatches (hd "" (split " " (toLowerCase name)))
                               (last (split " " (toLowerCase name)) "")) links with
        | Some l => Link.href l
        | None => ""
        end
    end.
Proof.
  intros Hname. unfold findProfileLink.
  apply isEmpty_false in Hname. rewrite Hname.
  destruct (resolver_tokens name) as [-> ->].
  destruct links as [|l links]; reflexivity.
Qed.

(** C6, as the code has it: for a non-empty name the resolver returns the
    link of the first entry, in page order, whose text contains the name or
    is contained in it, both case-folded; failing that, the link of the
    first entry whose case-folded link contains the first and the last token
    of the name, or the two joined by a hyphen in either order; failing
    both, the empty string.  For the empty name it returns the empty string.
    The result is always empty or the link of an entry of the list.  For
    "Jane Smith" and her link it is "/people/jsmith". *)
Theorem C6_findProfileLink :
  forall (name : string) (links : list Link.ProfileLinkEntry),
    let firstName := hd "" (split " " (toLowerCase name)) in
    let lastName := last (split " " (toLowerCase name)) "" in
    (name <> "" ->
       (forall l, firstSatisfying (textMatches name) links l ->
          findProfileLink name links = Link.href l)
       /\ ((forall y, In y links -> textMatches name y = false) ->
           (forall l, firstSatisfying (urlMatches firstName lastName) links l ->
              findProfileLink name links = Link.href l)
           /\ ((forall y, In y links -> urlMatches firstName lastName y = false) ->
               findProfileLink name links = "")))
    /\ (name = "" -> findProfileLink name links = "")
    /\ (findProfileLink name links = ""
        \/ exists l, In l links /\ findProfileLink name links = Link.href l)
    /\ findProfileLink "Jane Smith" [janeSmithLink] = "/people/jsmith"
    /\ findProfileLink name [] = "".
Proof.
  intros name links firstName lastName.
  split; [|split; [|split; [|split]]].
  - intros Hname. rewrite (findProfileLink_steps _ _ Hname). fold firstName lastName.
    split; [|intros Hnone; split].
    + intros l Hl. now rewrite (find_first _ _ _ Hl).
    + intros l Hl. now rewrite (find_none_all _ _ Hnone), (find_first _ _ _ Hl).
    + intros Hnone'. now rewrite (find_none_all _ _ Hnone), (find_none_all _ _ Hnone').
  - intros ->. reflexivity.
  - destruct name as [|c name]; [now left|].
    rewrite findProfileLink_steps by discriminate.
    destruct (find (textMatches _) links) as [l|] eqn:E.
    + right. exists l. split; [exact (proj1 (find_some _ _ E)) | reflexivity].
    + destruct (find (urlMatches _ _) links) as [l|] eqn:E'; [|now left].
      right. exists l. split; [exact (proj1 (find_some _ _ E')) | reflexivity].
  - reflexivity.
  - unfold findProfileLink. now destruct (isEmpty name).
Qed.

Lemma C6_findProfileLink_witness :
  findProfileLink "Jane Smith" [janeSmithLink] = Link.href janeSmithLink.
Proof.
  refine (proj1 (proj1 (C6_findProfileLink "Jane Smith" [janeSmithLink]) _) janeSmithLink _).
  - discriminate.
  - exists [], []. repeat split. intros y [].
Defined.

(** C6 as stated fails on the empty name: the text of the first entry
    contains it, and yet the resolver returns the empty string, not the
    link of that entry. *)
Lemma C6_counterexample :
  firstSatisfying (textMatches "") [janeSmithLink] janeSmithLink
  /\ findProfileLink "" [janeSmithLink] = ""
  /\ findProfileLink "" [janeSmithLink] <> Link.href janeSmithLink.
Proof.
  split; [|split; [reflexivity | discriminate]].
  exists [], []. repeat split. intros y [].
Qed.

(* ================================================================== *)
(** ** The context extractors *)
(* ================================================================== *)

Lemma take_app (a r : string) (k : nat) :
  take (String.length a + k) (a ++ r) = a ++ take k r.
Proof. induction a as [|x a IH]; simpl; [reflexivity | now rewrite IH]. Qed.

Lemma drop_app_plus (a r : string) (k : nat) :
  drop (String.length a + k) (a ++ r) = drop k r.
Proof. induction a as [|x a IH]; simpl; [reflexivity | exact IH]. Qed.

Lemma span_le (cls : ascii -> bool) (s : string) : span cls s <= String.length s.
Proof. induction s as [|c s IH]; simpl; [lia | destruct (cls c); simpl; lia]. Qed.

Lemma span_take (cls : ascii -> bool) (s : string) :
  every cls (take (span cls s) s) = true.
Proof.
  induction s as [|c s IH]; simpl; [reflexivity|].
  destruct (cls c) eqn:E; simpl; [now rewrite E | reflexivity].
Qed.

Lemma span_drop (cls : ascii -> bool) (s : string) :
  drop (span cls s) s = ""
  \/ exists c r, drop (span cls s) s = String c r /\ cls c = false.
Proof.
  induction s as [|c s IH]; simpl; [now left|].
  destruct (cls c) eqn:E; simpl; [exact IH | right; now exists c, s].
Qed.

Lemma prefix_app (p s : string) : String.prefix p (p ++ s) = true.
Proof.
  induction p as [|c p IH]; simpl; [now destruct s|].
  destruct (ascii_dec c c); [exact IH | congruence].
Qed.

Lemma includes_prefix (s t : string) : String.prefix t s = true -> includes s t = true.
Proof. intros H. destruct s; cbn [includes]; now rewrite H. Qed.

Lemma includes_app_l (a b : string) : includes (a ++ b) a = true.
Proof. apply includes_prefix, prefix_app. Qed.

Lemma includes_cons (c : ascii) (s t : string) :
  includes s t = true -> includes (String c s) t = true.
Proof. intros H. cbn [includes]. rewrite H. apply orb_true_r. Qed.

Lemma includes_app_r (a b : string) : includes (a ++ b) b = true.
Proof.
  induction a as [|c a IH]; simpl append.
  - apply includes_prefix. rewrite <- (append_nil_r b) at 2. apply prefix_app.
  - now apply includes_cons.
Qed.

Lemma universityAt_eq (s : string) :
  universityAt s =
    if String.prefix "University" s
    then Some (10 + span notPipe (drop 10 s))
    else match s with
         | EmptyString => None
         | String c s' =>
             if isLineTerminator c then None
             else match universityAt s' with
                  | Some n => Some (S n)
                  | None => None
                  end
         end.
Proof. destruct s; reflexivity. Qed.

Lemma exec_found (s : string) :
  includes s "University" = true -> exists m, exec universityAt s = Some m.
Proof.
  induction s as [|c s IH]; intros H.
  - discriminate.
  - cbn [includes] in H. cbn [exec]. rewrite universityAt_eq.
    destruct (String.prefix "University" (String c s)); [eexists; reflexivity|].
    simpl in H. destruct (IH H) as [m Hm].
    destruct (isLineTerminator c); [now exists m|].
    destruct (universityAt s); [eexists; reflexivity | now exists m].
Qed.

Lemma lastChar_snoc (b : string) (c : ascii) : lastChar (b ++ String c "") = Some c.
Proof.
  induction b as [|x b IH]; [reflexivity|].
  simpl. destruct (b ++ String c "") eqn:E; [|exact IH].
  destruct b; discriminate.
Qed.

(** What [replace('.edu', '')] does: the first occurrence goes. *)
Lemma prefix_app_long (p x y : string) :
  String.length p <= String.length x -> String.prefix p (x ++ y) = String.prefix p x.
Proof.
  revert x; induction p as [|c p IH]; intros [|d x] H; simpl in *;
    try reflexivity; try lia; try (now destruct y).
  destruct (ascii_dec c d); [apply IH; lia | reflexivity].
Qed.

Lemma includes_cons_false (c : ascii) (s t : string) :
  includes (String c s) t = false ->
  String.prefix t (String c s) = false /\ includes s t = false.
Proof. cbn [includes]. intros H. now apply orb_false_iff in H. Qed.

Lemma replaceFirst_absent (p s : string) :
  includes s p = false -> replaceFirst (literal p) "" s = s.
Proof.
  induction s as [|c s IH]; intros H.
  - cbn [replaceFirst]. destruct (literal p "") as [[|n]|]; reflexivity.
  - apply includes_cons_false in H. destruct H as [H1 H2].
    cbn [replaceFirst]. unfold literal at 1. rewrite H1. now rewrite IH.
Qed.

Lemma replaceFirst_edu (a b : string) :
  includes (a ++ ".ed") ".edu" = false ->
  replaceFirst (literal ".edu") "" (a ++ ".edu" ++ b) = a ++ b.
Proof.
  induction a as [|c a IH]; intros H.
  - simpl. unfold literal. simpl. now destruct b.
  - change (String c a ++ ".ed") with (String c (a ++ ".ed")) in H.
    apply includes_cons_false in H. destruct H as [H1 H2].
    change (String c a ++ ".edu" ++ b) with (String c (a ++ ".edu" ++ b)).
    cbn [replaceFirst]. unfold literal at 1.
    replace (String c (a ++ ".edu" ++ b)) with ((String c (a ++ ".ed")) ++ ("u" ++ b)).
    + rewrite prefix_app_long, H1.
      * simpl. f_equal. now apply IH.
      * simpl. rewrite length_append. simpl. lia.
    + simpl. f_equal. now rewrite append_assoc.
Qed.

Lemma stripLeading_www (d : string) :
  replaceAtStart (literal "www.") "" d = stripLeading "www." d.
Proof.
  unfold replaceAtStart, literal, stripLeading, startsWith.
  now destruct (String.prefix "www." d).
Qed.

Lemma nameParts_at (name : string) :
  2 <= length (nameParts name) ->
  exists f l, at_ (nameParts name) 0 = Some f
              /\ at_ (nameParts name) (length (nameParts name) - 1) = Some l.
Proof.
  intros H. unfold at_.
  destruct (nth_error (nameParts name) 0) as [f|] eqn:E0;
    [|apply nth_error_None in E0; lia].
  destruct (nth_error (nameParts name) (length (nameParts name) - 1)) as [l|] eqn:E1;
    [|apply nth_error_None in E1; lia].
  now exists f, l.
Qed.

Lemma split_at (sep : ascii) (s : string) : exists h, at_ (split sep s) 0 = Some h.
Proof.
  pose proof (split_not_nil sep s) as H.
  destruct (split sep s) as [|h t]; [congruence | now exists h].
Qed.

(** With its steps that can throw kept, the scorer returns on every pair of
    arguments, and returns what [Helpers] says: past the guards the name has
    a first and a last token, and the split of the email a first part. *)
Lemma scorer_returns (name email : option string) :
  Throwing.calculateEmailConfidence name email
  = Returns (calculateEmailConfidence (Throwing.orEmpty name) (Throwing.orEmpty email)).
Proof.
  unfold Throwing.calculateEmailConfidence, calculateEmailConfidence.
  destruct name as [name|]; [|reflexivity].
  destruct email as [email|]; [|simpl; now destruct (isEmpty name)].
  cbn [Throwing.falsy Throwing.orEmpty].
  destruct (isEmpty name || isEmpty email) eqn:G; [reflexivity|].
  cbn [orb Throwing.property Throwing.bind].
  destruct (String.length email <? 5); [reflexivity|].
  fold (nameParts name). destruct (length (nameParts name) <? 2) eqn:L; [reflexivity|].
  apply Nat.ltb_ge in L. destruct (nameParts_at name L) as (f & l & -> & ->).
  unfold emailLocal. destruct (split_at "@" email) as [h ->].
  cbn [Throwing.property Throwing.bind interpolate].
  repeat match goal with
         | |- context [if ?b then _ else _] => destruct b
         end; reflexivity.
Qed.

Lemma resolver_returns (name : option string) (links : list Link.ProfileLinkEntry) :
  Throwing.findProfileLink name links
  = Returns (findProfileLink (Throwing.orEmpty name) links).
Proof.
  unfold Throwing.findProfileLink, findProfileLink.
  destruct name as [name|]; [|reflexivity].
  cbn [Throwing.falsy Throwing.orEmpty].
  destruct (isEmpty name || (length links =? 0)); [reflexivity|].
  cbn [Throwing.property Throwing.bind]. fold (textMatches name).
  destruct (find (textMatches name) links); [reflexivity|].
  now destruct (find _ links).
Qed.

Lemma university_returns (hostname : string -> option string) (url : string)
    (pageTitle : option string) :
  Throwing.getUniversityName hostname url pageTitle
  = getUniversityName hostname url (Throwing.orEmpty pageTitle).
Proof.
  unfold Throwing.getUniversityName, getUniversityName, Throwing.matchUniversity.
  destruct (hostname url); [|reflexivity].
  destruct (find _ universityDomains); [reflexivity|].
  destruct (includes (Throwing.orEmpty pageTitle) "University"); [|reflexivity].
  now destruct (exec universityAt (Throwing.orEmpty pageTitle)).
Qed.

Lemma university_accepted (hostname : string -> option string) (url h : string)
    (pageTitle : option string) :
  hostname url = Some h ->
  exists v, Throwing.getUniversityName hostname url pageTitle = Returns v.
Proof.
  intros Hh. rewrite university_returns. unfold getUniversityName. rewrite Hh.
  destruct (find _ universityDomains); [eexists; reflexivity|].
  destruct (if includes _ "University" then _ else _); eexists; reflexivity.
Qed.

Lemma cleaners_return (s : option string) :
  Throwing.cleanName s = Returns (cleanName (Throwing.orEmpty s))
  /\ Throwing.cleanTitle s = Returns (cleanTitle (Throwing.orEmpty s))
  /\ Throwing.cleanEmail s = Returns (cleanEmail (Throwing.orEmpty s))
  /\ Throwing.cleanPhone s = Returns (cleanPhone (Throwing.orEmpty s)).
Proof.
  unfold Throwing.cleanName, Throwing.cleanTitle, Throwing.cleanEmail, Throwing.cleanPhone,
    cleanName, cleanTitle, cleanEmail, cleanPhone.
  destruct s as [s|]; cbn [Throwing.falsy Throwing.orEmpty]; [|now repeat split].
  destruct (isEmpty s); [now repeat split|].
  cbn [Throwing.property Throwing.bind orb].
  repeat split. now destruct (includes s "@").
Qed.




Lemma prefix_app_mono (p x y : string) :
  String.prefix p x = true -> String.prefix p (x ++ y) = true.
Proof.
  revert x; induction p as [|c p IH]; intros [|d x] H; simpl in *;
    try reflexivity; try discriminate; try (now destruct y).
  destruct (ascii_dec c d); [now apply IH | discriminate].
Qed.

(** A prefix of [b ++ r] is a prefix of [b], or [b] is the start of it. *)
Lemma prefix_straddle (p b r : string) :
  String.prefix p (b ++ r) = true ->
  String.prefix p b = true \/ exists q, p = b ++ q.
Proof.
  revert b; induction p as [|c p IH]; intros b H.
  - left. now destruct b.
  - destruct b as [|d b]; [right; now exists (String c p)|].
    simpl in H |- *. destruct (ascii_dec c d) as [->|]; [|discriminate].
    destruct (IH b H) as [Hp | [q ->]]; [now left | right; now exists q].
Qed.

Lemma every_app (cls : ascii -> bool) (a b : string) :
  every cls (a ++ b) = every cls a && every cls b.
Proof. induction a as [|c a IH]; simpl; [reflexivity | now rewrite IH, andb_assoc]. Qed.

Lemma every_lastChar (cls : ascii -> bool) (s : string) (c : ascii) :
  every cls s = true -> lastChar s = Some c -> cls c = true.
Proof.
  induction s as [|d s IH]; [discriminate|].
  cbn [every]. intros H L. apply andb_true_iff in H. destruct H as [Hd Hs].
  destruct s as [|e s]; [simpl in L; congruence|].
  apply IH; [exact Hs | exact L].
Qed.

(** A text that ends a line is not the start of "University". *)
Lemma line_end_not_in_University (b q : string) (c : ascii) :
  lastChar b = Some c -> isLineTerminator c = true -> "University" <> b ++ q.
Proof.
  intros L T E.
  assert (H : every (fun c => negb (isLineTerminator c)) (b ++ q) = true)
    by now rewrite <- E.
  rewrite every_app in H. apply andb_true_iff in H. destruct H as [H _].
  pose proof (every_lastChar _ _ _ H L) as N. simpl in N. now rewrite T in N.
Qed.

(** No match starts inside a text that ends a line and holds no
    "University". *)
Lemma universityAt_blocked (b r : string) (c : ascii) :
  lastChar b = Some c -> isLineTerminator c = true ->
  includes b "University" = false ->
  universityAt (b ++ r) = None.
Proof.
  induction b as [|d b IH]; intros L T I; [discriminate|].
  apply includes_cons_false in I. destruct I as [P I].
  rewrite universityAt_eq.
  destruct (String.prefix "University" (String d b ++ r)) eqn:Q.
  - apply prefix_straddle in Q. destruct Q as [Q | [q Q]]; [congruence|].
    now destruct (line_end_not_in_University _ _ _ L T Q).
  - change (String d b ++ r) with (String d (b ++ r)). cbv iota beta.
    destruct (isLineTerminator d) eqn:D; [reflexivity|].
    destruct b as [|e b]; [simpl in L; congruence|].
    now rewrite (IH L T I).
Qed.

Lemma span_app_stop (cls : ascii -> bool) (t a : string) :
  every cls t = true ->
  (a = "" \/ exists c r, a = String c r /\ cls c = false) ->
  span cls (t ++ a) = String.length t.
Proof.
  induction t as [|c t IH]; intros H Ha.
  - destruct Ha as [-> | (c & r & -> & Hc)]; simpl; [reflexivity | now rewrite Hc].
  - cbn [every] in H. apply andb_true_iff in H. destruct H as [Hc Ht].
    simpl. rewrite Hc. f_equal. now apply IH.
Qed.

Lemma startsWith_pipe (a : string) :
  a = "" \/ startsWith a "|" = true ->
  a = "" \/ exists c r, a = String c r /\ notPipe c = false.
Proof.
  intros [-> | H]; [now left | right].
  destruct a as [|c r]; [discriminate|].
  unfold startsWith in H. apply prefix_inv in H. simpl in H.
  injection H as ->. now exists "|"%char, r.
Qed.

(** The pattern at the head of a text: the match it takes is the one to the
    first "University" and on to the next pipe. *)
Lemma universityAt_complete (lead tail after : string) :
  every (fun c => negb (isLineTerminator c)) lead = true ->
  includes (lead ++ "Universit") "University" = false ->
  every notPipe tail = true ->
  (after = "" \/ startsWith after "|" = true) ->
  universityAt ((lead ++ "University" ++ tail) ++ after)
  = Some (String.length (lead ++ "University" ++ tail)).
Proof.
  intros Hl Hi Ht Ha. induction lead as [|c lead IH]; rewrite universityAt_eq.
  - change (("" ++ "University" ++ tail) ++ after)
      with ("University" ++ (tail ++ after)).
    rewrite prefix_app.
    change 10 with (String.length "University" + 0) at 2.
    rewrite drop_app_plus. cbn [drop].
    rewrite (span_app_stop _ _ _ Ht (startsWith_pipe _ Ha)).
    now rewrite !length_append.
  - change (String c lead ++ "Universit") with (String c (lead ++ "Universit")) in Hi.
    apply includes_cons_false in Hi. destruct Hi as [P I].
    cbn [every] in Hl. apply andb_true_iff in Hl. destruct Hl as [Hc Hl].
    replace ((String c lead ++ "University" ++ tail) ++ after)
      with (String c (lead ++ "Universit") ++ ("y" ++ tail ++ after)).
    + rewrite prefix_app_long, P.
      * change (String c (lead ++ "Universit") ++ "y" ++ tail ++ after)
          with (String c ((lead ++ "Universit") ++ "y" ++ tail ++ after)).
        cbv iota beta. apply negb_true_iff in Hc. rewrite Hc.
        replace ((lead ++ "Universit") ++ "y" ++ tail ++ after)
          with ((lead ++ "University" ++ tail) ++ after).
        -- now rewrite (IH Hl I).
        -- rewrite !append_assoc. reflexivity.
      * simpl. rewrite length_append. simpl. lia.
    + simpl. f_equal. rewrite !append_assoc. reflexivity.
Qed.

Lemma exec_complete (before rest : string) (n : nat) :
  (before = "" \/ exists c, lastChar before = Some c /\ isLineTerminator c = true) ->
  includes before "University" = false ->
  universityAt rest = Some n ->
  exec universityAt (before ++ rest) = Some (take n rest).
Proof.
  intros Hb Hi Hr. induction before as [|d b IH].
  - cbn [append]. destruct rest; cbn [exec]; now rewrite Hr.
  - destruct Hb as [Hb | (c & L & T)]; [discriminate|].
    change (String d b ++ rest) with (String d (b ++ rest)). cbn [exec].
    change (String d (b ++ rest)) with (String d b ++ rest).
    rewrite (universityAt_blocked _ rest _ L T Hi).
    apply includes_cons_false in Hi. destruct Hi as [_ Hi].
    apply IH; [|exact Hi].
    destruct b as [|e b]; [now left | right]. now exists c.
Qed.

(** What a match of the pattern at the head of a text is made of. *)
Lemma universityAt_sound (s : string) (n : nat) :
  universityAt s = Some n ->
  exists lead tail,
    take n s = lead ++ "University" ++ tail
    /\ every (fun c => negb (isLineTerminator c)) lead = true
    /\ includes (lead ++ "Universit") "University" = false
    /\ every notPipe tail = true
    /\ (drop n s = "" \/ startsWith (drop n s) "|" = true).
Proof.
  revert n; induction s as [|c s IH]; intros n; rewrite universityAt_eq.
  - simpl. discriminate.
  - destruct (String.prefix "University" (String c s)) eqn:P.
    + intros H. apply prefix_inv in P. change (String.length "University") with 10 in P.
      remember (drop 10 (String c s)) as r eqn:Er.
      assert (Hn : n = String.length "University" + span notPipe r)
        by (change (String.length "University") with 10; congruence).
      rewrite Hn, P. clear.
      rewrite take_app, drop_app_plus.
      exists "", (take (span notPipe r) r).
      split; [reflexivity|]. split; [reflexivity|]. split; [reflexivity|].
      split; [apply span_take|].
      destruct (span_drop notPipe r) as [E | (d & r' & E & Hd)].
      * now left.
      * right. rewrite E. unfold notPipe in Hd.
        apply negb_false_iff, Ascii.eqb_eq in Hd. subst d.
        unfold startsWith. simpl. now destruct r'.
    + destruct (isLineTerminator c) eqn:LT; [discriminate|].
      destruct (universityAt s) as [k|] eqn:U; [|discriminate].
      intros [= <-]. destruct (IH k eq_refl) as (lead & tail & Ht & Hl & Hz & Hp & Hd).
      exists (String c lead), tail.
      split; [simpl; now rewrite Ht|].
      split; [simpl; now rewrite LT, Hl|].
      split; [|split; assumption].
      change (String c lead ++ "Universit") with (String c (lead ++ "Universit")).
      cbn [includes]. rewrite Hz, orb_false_r.
      assert (E : String c s
                  = String c (lead ++ "Universit") ++ ("y" ++ tail ++ drop k s)).
      { rewrite <- (take_drop k s) at 1. rewrite Ht. simpl. f_equal.
        rewrite !append_assoc. reflexivity. }
      rewrite E, prefix_app_long in P; [exact P|].
      simpl. rewrite length_append. simpl. lia.
Qed.

(** Where [exec] finds the pattern: at the first place where a match
    starts.  What stands before it ends a line, and holds no "University". *)
Lemma exec_leftmost (s m : string) :
  exec universityAt s = Some m ->
  exists before rest n,
    s = before ++ rest /\ universityAt rest = Some n /\ m = take n rest
    /\ (before = "" \/ exists c, lastChar before = Some c /\ isLineTerminator c = true)
    /\ includes before "University" = false.
Proof.
  induction s as [|c s IH]; cbn [exec].
  - destruct (universityAt "") as [n|] eqn:E; [|discriminate].
    intros [= <-]. exists "", "", n. repeat split; try assumption. now left.
  - destruct (universityAt (String c s)) as [n|] eqn:E.
    + intros [= <-]. exists "", (String c s), n. repeat split; try assumption. now left.
    + intros H. destruct (IH H) as (before & rest & n & -> & Hre & -> & Hb & Hi).
      exists (String c before), rest, n.
      split; [reflexivity|]. split; [exact Hre|]. split; [reflexivity|].
      rewrite universityAt_eq in E.
      destruct (String.prefix "University" (String c (before ++ rest))) eqn:P;
        [discriminate|].
      split.
      * right. destruct Hb as [-> | (d & L & T)].
        -- exists c. split; [reflexivity|]. cbn [append] in E.
           destruct (isLineTerminator c); [reflexivity|]. now rewrite Hre in E.
        -- exists d. split; [|exact T].
           destruct before; [discriminate | exact L].
      * cbn [includes]. rewrite Hi, orb_false_r.
        destruct (String.prefix "University" (String c before)) eqn:Q; [|reflexivity].
        apply (prefix_app_mono _ _ rest) in Q.
        change (String c before ++ rest) with (String c (before ++ rest)) in Q.
        congruence.
Qed.

Lemma includes_middle (a p b : string) : includes (a ++ p ++ b) p = true.
Proof.
  induction a as [|c a IH]; [exact (includes_app_l p b)|].
  change (String c a ++ p ++ b) with (String c (a ++ p ++ b)). now apply includes_cons.
Qed.

Lemma universityMatch_exec (pageTitle before lead tail after : string) :
  universityMatch pageTitle before lead tail after ->
  includes pageTitle "University" = true
  /\ exec universityAt pageTitle = Some (lead ++ "University" ++ tail).
Proof.
  intros (-> & Hb & Hi & Hl & Hz & Ht & Ha). split.
  - replace (before ++ (lead ++ "University" ++ tail) ++ after)
      with ((before ++ lead) ++ "University" ++ (tail ++ after))
      by (rewrite !append_assoc; reflexivity).
    apply includes_middle.
  - rewrite (exec_complete _ _ _ Hb Hi (universityAt_complete _ _ _ Hl Hz Ht Ha)).
    rewrite <- (Nat.add_0_r (String.length _)), take_app.
    cbn [take]. now rewrite append_nil_r.
Qed.

Lemma exec_universityMatch (pageTitle m : string) :
  exec universityAt pageTitle = Some m ->
  exists before lead tail after, universityMatch pageTitle before lead tail after.
Proof.
  intros Hm.
  destruct (exec_leftmost _ _ Hm) as (before & rest & n & Hs & Hre & -> & Hb & Hi).
  destruct (universityAt_sound _ _ Hre) as (lead & tail & Ht & Hl & Hz & Hp & Hd).
  exists before, lead, tail, (drop n rest). unfold universityMatch.
  rewrite <- Ht, take_drop. repeat split; assumption.
Qed.

(** C9, as the code has it: [getUniversityName] looks the case-folded host
    name of the URL up in the table of domain fragments and returns the
    institution of the first fragment it contains.  If there is none, and
    the page title contains "University", it returns the trimmed match of
    the pattern in the title.  That match is the one of [universityMatch]:
    it starts at the beginning of the line of the first "University" of the
    title, runs to that "University" and on to the next pipe or to the end
    of the title; the title has such a match, and any such match gives the
    result.  Otherwise it returns the host name without a leading "www."
    and without the first occurrence of ".edu", wherever in the name that
    occurrence stands. *)
Theorem C9_getUniversityName :
  forall (hostname : string -> option string) (url pageTitle h : string),
    hostname url = Some h ->
    let domain := toLowerCase h in
    let host := stripLeading "www." domain in
    (forall entry,
        firstSatisfying (fun e => includes domain (fst e)) universityDomains entry ->
        getUniversityName hostname url pageTitle = Returns (snd entry))
    /\ ((forall e, In e universityDomains -> includes domain (fst e) = false) ->
        (forall before lead tail after,
            universityMatch pageTitle before lead tail after ->
            getUniversityName hostname url pageTitle
            = Returns (trim (lead ++ "University" ++ tail)))
        /\ (includes pageTitle "University" = true ->
            exists before lead tail after,
              universityMatch pageTitle before lead tail after)
        /\ (includes pageTitle "University" = false ->
            (includes host ".edu" = false ->
             getUniversityName hostname url pageTitle = Returns host)
            /\ (forall a b,
                  host = a ++ ".edu" ++ b -> includes (a ++ ".ed") ".edu" = false ->
                  getUniversityName hostname url pageTitle = Returns (a ++ b)))).
Proof.
  intros hostname url pageTitle h Hh domain host.
  unfold getUniversityName. rewrite Hh. fold domain. split.
  - intros entry He. now rewrite (find_first _ _ _ He).
  - intros Hnone. rewrite (find_none_all _ _ Hnone). split; [|split].
    + intros before lead tail after M.
      destruct (universityMatch_exec _ _ _ _ _ M) as [Hu Hm]. now rewrite Hu, Hm.
    + intros Hu. destruct (exec_found _ Hu) as [m Hm].
      exact (exec_universityMatch _ _ Hm).
    + intros Hu. rewrite Hu, stripLeading_www. fold host. split.
      * intros Hedu. now rewrite replaceFirst_absent.
      * intros a b -> Ha. now rewrite replaceFirst_edu.
Qed.

Lemma C9_getUniversityName_witness :
  getUniversityName URL.hostname "https://www.sydney.edu.au/music" "Staff"
  = Returns ("sydney" ++ ".au")
  /\ getUniversityName URL.hostname "https://music.school.edu/people"
       "People | The University of Sydney | Music"
     = Returns (trim ("People | The " ++ "University" ++ " of Sydney ")).
Proof.
  split.
  - refine (proj2 (proj2 (proj2 (proj2 (C9_getUniversityName URL.hostname
              "https://www.sydney.edu.au/music" "Staff" "www.sydney.edu.au" _) _)) _)
              "sydney" ".au" _ _).
    + reflexivity.
    + intros e [<- | [<- | [<- | [<- | []]]]]; reflexivity.
    + reflexivity.
    + reflexivity.
    + reflexivity.
  - refine (proj1 (proj2 (C9_getUniversityName URL.hostname
              "https://music.school.edu/people"
              "People | The University of Sydney | Music" "music.school.edu" _) _)
              "" "People | The " " of Sydney " "| Music" _).
    + reflexivity.
    + intros e [<- | [<- | [<- | [<- | []]]]]; reflexivity.
    + unfold universityMatch. repeat split; try reflexivity; [now left | now right].
Defined.

(** C9 as stated fails: the host name "www.sydney.edu.au" has no trailing
    ".edu", so the specification leaves "sydney.edu.au"; the code removes
    the ".edu" inside and returns "sydney.au". *)
Lemma C9_counterexample :
  URL.hostname "https://www.sydney.edu.au/music" = Some "www.sydney.edu.au"
  /\ includes "Staff" "University" = false
  /\ hostWithoutWwwAndEdu "www.sydney.edu.au" = "sydney.edu.au"
  /\ getUniversityName URL.hostname "https://www.sydney.edu.au/music" "Staff"
     = Returns "sydney.au"
  /\ getUniversityName URL.hostname "https://www.sydney.edu.au/music" "Staff"
     <> Returns (hostWithoutWwwAndEdu "www.sydney.edu.au").
Proof.
  repeat split; discriminate.
Qed.

(* ================================================================== *)
(** ** Global replacement *)
(* ================================================================== *)

Section ReplaceAll.

Variable re : matcher.
Variable rep : string.

(** Every match consumes at least one code unit, and no more than there is. *)
Hypothesis re_bounds : forall s n, re s = Some n -> 0 < n <= String.length s.

Lemma replaceFrom_skip (k : nat) (s : string) :
  k <= String.length s -> replaceFrom re rep k s = replaceFrom re rep 0 (drop k s).
Proof.
  revert s; induction k as [|k IH]; intros [|c s] H; simpl in H; try reflexivity; try lia.
  simpl. apply IH. lia.
Qed.

Lemma replaceAll_nil : replaceAll re rep "" = "".
Proof.
  unfold replaceAll; simpl. destruct (re "") as [n|] eqn:E; [|reflexivity].
  apply re_bounds in E. simpl in E. lia.
Qed.

Lemma replaceAll_skip (c : ascii) (s : string) :
  re (String c s) = None ->
  replaceAll re rep (String c s) = String c (replaceAll re rep s).
Proof. intros H. unfold replaceAll. simpl. now rewrite H. Qed.

Lemma replaceAll_match (s : string) (n : nat) :
  re s = Some n -> replaceAll re rep s = rep ++ replaceAll re rep (drop n s).
Proof.
  intros H. pose proof (re_bounds _ _ H) as B.
  destruct s as [|c s]; simpl in B; [lia|].
  destruct n as [|k]; [lia|].
  unfold replaceAll. cbn [replaceFrom drop]. rewrite H. f_equal.
  apply replaceFrom_skip. lia.
Qed.

(** Appending a text that no match can reach into leaves the matches of
    the first part as they are. *)
Lemma replaceAll_app (t q : string) :
  (forall x, x <> "" -> re (x ++ q) = re x) ->
  replaceAll re rep (t ++ q) = replaceAll re rep t ++ replaceAll re rep q.
Proof.
  intros Hq. remember (String.length t) as m eqn:Hm.
  revert t Hm; induction m as [m IH] using lt_wf_ind; intros t Hm.
  destruct t as [|c t]; [now rewrite replaceAll_nil|].
  destruct (re (String c t)) as [n|] eqn:E.
  - pose proof (re_bounds _ _ E) as B.
    rewrite (replaceAll_match (String c t) n E).
    rewrite (replaceAll_match (String c t ++ q) n) by (rewrite Hq; [exact E | discriminate]).
    rewrite drop_app_le by lia. rewrite append_assoc. f_equal.
    apply (IH (String.length (drop n (String c t)))); [|reflexivity].
    rewrite drop_length. subst m. lia.
  - rewrite replaceAll_skip by exact E.
    change (String c t ++ q) with (String c (t ++ q)).
    rewrite replaceAll_skip
      by (change (String c (t ++ q)) with (String c t ++ q); rewrite Hq; [exact E | discriminate]).
    simpl. f_equal. apply (IH (String.length t)); [subst m; simpl; lia | reflexivity].
Qed.

End ReplaceAll.

(** *** The bounds of the patterns *)

Lemma canon_length (s : string) : String.length (canon s) = String.length s.
Proof. induction s as [|c s IH]; simpl; [reflexivity | now rewrite IH]. Qed.

Lemma canon_app (a b : string) : canon (a ++ b) = canon a ++ canon b.
Proof. induction a as [|c a IH]; simpl; [reflexivity | now rewrite IH]. Qed.

Lemma literalCI_bounds (p s : string) (n : nat) :
  literalCI p s = Some n -> n = String.length p /\ String.length p <= String.length s.
Proof.
  unfold literalCI. destruct (String.prefix (canon p) (canon s)) eqn:E; [|discriminate].
  intros [= <-]. split; [reflexivity|].
  apply prefix_length in E. now rewrite !canon_length in E.
Qed.

Lemma alternatives_literalCI_bounds (ps : list string) (s : string) (n : nat) :
  alternatives (map literalCI ps) s = Some n ->
  exists p, In p ps /\ n = String.length p /\ String.length p <= String.length s.
Proof.
  induction ps as [|p ps IH]; simpl; [discriminate|].
  destruct (literalCI p s) as [k|] eqn:E.
  - intros [= <-]. exists p. split; [now left | now apply literalCI_bounds].
  - intros H. destruct (IH H) as (p' & Hin & Hp'). exists p'. split; [now right | exact Hp'].
Qed.

Lemma honorificRe_bounds (s : string) (n : nat) :
  honorificRe s = Some n -> 0 < n <= String.length s.
Proof.
  intros H. apply alternatives_literalCI_bounds in H.
  destruct H as (p & Hin & -> & Hle). split; [|exact Hle].
  simpl in Hin. decompose [or] Hin; subst; simpl; try lia; contradiction.
Qed.

Lemma whitespaceRe_bounds (s : string) (n : nat) :
  whitespaceRe s = Some n -> 0 < n <= String.length s.
Proof.
  unfold whitespaceRe. pose proof (span_le isWhiteSpace s) as L.
  destruct (span isWhiteSpace s); [discriminate|]. intros [= <-]. lia.
Qed.

Lemma suffixRe_bounds (s : string) (n : nat) :
  suffixRe s = Some n -> 0 < n <= String.length s.
Proof.
  unfold suffixRe. destruct s as [|c s]; [discriminate|].
  destruct (Ascii.eqb c ","); [|discriminate].
  pose proof (span_le isWhiteSpace s) as L.
  destruct (alternatives _ _) as [k|] eqn:E; [|discriminate].
  apply alternatives_literalCI_bounds in E. destruct E as (p & _ & -> & Hle).
  rewrite drop_length in Hle.
  intros [= <-]. split; [lia|].
  set (n := span isWhiteSpace s) in *. set (k := String.length p) in *.
  unfold startsWith.
  destruct (String.prefix "." (drop (n + k) s)) eqn:P; simpl; [|lia].
  apply prefix_length in P. rewrite drop_length in P. simpl in P. lia.
Qed.

(* ================================================================== *)
(** ** White space in a cleaned name *)
(* ================================================================== *)

Lemma toLowerChar_whitespace (c : ascii) :
  isWhiteSpace (toLowerChar c) = isWhiteSpace c.
Proof. each_code_unit c. Qed.

Lemma toLowerChar_space (c : ascii) :
  Ascii.eqb (toLowerChar c) " " = Ascii.eqb c " ".
Proof. each_code_unit c. Qed.

Lemma collapse_singleSpaced (s : string) :
  singleSpaced (replaceAll whitespaceRe " " s) = true.
Proof.
  remember (String.length s) as m eqn:Hm.
  revert s Hm; induction m as [m IH] using lt_wf_ind; intros s Hm.
  destruct s as [|c s]; [now rewrite (replaceAll_nil _ _ whitespaceRe_bounds)|].
  destruct (whitespaceRe (String c s)) as [n|] eqn:E.
  - rewrite (replaceAll_match _ _ whitespaceRe_bounds _ _ E).
    pose proof (whitespaceRe_bounds _ _ E) as B.
    assert (Hn : n = span isWhiteSpace (String c s)).
    { unfold whitespaceRe in E. destruct (span isWhiteSpace (String c s)); congruence. }
    change (" " ++ ?x) with (String " " x). cbn [singleSpaced].
    rewrite (IH (String.length (drop n (String c s)))); try reflexivity;
      [|rewrite drop_length; subst m; cbn [String.length] in *; lia].
    rewrite andb_true_r. change (isWhiteSpace " ") with true. cbn [Ascii.eqb andb].
    replace (Ascii.eqb " " " ") with true by reflexivity. cbn [andb].
    destruct (span_drop isWhiteSpace (String c s)) as [D | (d & r & D & Hd)];
      rewrite <- Hn in D; rewrite D.
    + now rewrite (replaceAll_nil _ _ whitespaceRe_bounds).
    + rewrite (replaceAll_skip whitespaceRe " ").
      * simpl. now rewrite Hd.
      * unfold whitespaceRe. simpl. now rewrite Hd.
  - assert (Hc : isWhiteSpace c = false).
    { unfold whitespaceRe in E. simpl in E. now destruct (isWhiteSpace c). }
    rewrite (replaceAll_skip _ _ _ _ E). cbn [singleSpaced]. rewrite Hc.
    apply (IH (String.length s)); [subst m; simpl; lia | reflexivity].
Qed.

Lemma singleSpaced_tail (c : ascii) (s : string) :
  singleSpaced (String c s) = true -> singleSpaced s = true.
Proof. cbn [singleSpaced]. intros H. now apply andb_true_iff in H. Qed.

Lemma trimStart_singleSpaced (s : string) :
  singleSpaced s = true -> singleSpaced (trimStart s) = true.
Proof.
  induction s as [|c s IH]; intros H; [reflexivity|].
  simpl. destruct (isWhiteSpace c); [|exact H].
  apply IH. exact (singleSpaced_tail _ _ H).
Qed.

Lemma trimStart_noLeading (s : string) : noLeadingWhiteSpace (trimStart s) = true.
Proof.
  induction s as [|c s IH]; [reflexivity|].
  simpl. destruct (isWhiteSpace c) eqn:E; [exact IH | simpl; now rewrite E].
Qed.

Lemma trimEnd_head (s r : string) (d : ascii) :
  trimEnd s = String d r -> exists r', s = String d r'.
Proof.
  destruct s as [|c s]; [discriminate|]. simpl.
  destruct (trimEnd s); [destruct (isWhiteSpace c)|]; intros [= <- _]; now exists s.
Qed.

Lemma trimEnd_noLeading (s : string) :
  noLeadingWhiteSpace s = true -> noLeadingWhiteSpace (trimEnd s) = true.
Proof.
  intros H. destruct (trimEnd s) as [|d r] eqn:E; [reflexivity|].
  destruct (trimEnd_head _ _ _ E) as [r' ->]. exact H.
Qed.

Lemma trimEnd_singleSpaced (s : string) :
  singleSpaced s = true -> singleSpaced (trimEnd s) = true.
Proof.
  induction s as [|c s IH]; intros H; [reflexivity|].
  pose proof (IH (singleSpaced_tail _ _ H)) as IH'.
  cbn [trimEnd]. destruct (trimEnd s) as [|d r] eqn:E.
  - destruct (isWhiteSpace c) eqn:Hc; [reflexivity|]. simpl. now rewrite Hc.
  - destruct (trimEnd_head _ _ _ E) as [r' ->].
    cbn [singleSpaced] in H |- *. apply andb_true_iff in H. destruct H as [H _].
    apply andb_true_iff. split; [exact H | exact IH'].
Qed.

Lemma trimEnd_last (s : string) :
  match lastChar (trimEnd s) with
  | Some d => negb (isWhiteSpace d)
  | None => true
  end = true.
Proof.
  induction s as [|c s IH]; [reflexivity|].
  cbn [trimEnd]. destruct (trimEnd s) as [|d r] eqn:E.
  - destruct (isWhiteSpace c) eqn:Hc; [reflexivity|]. simpl. now rewrite Hc.
  - exact IH.
Qed.

(** The text [cleanName] returns for a non-empty argument. *)
Lemma cleanName_steps (name : string) :
  cleanName name
  = trim (replaceAll whitespaceRe " "
            (replaceAll suffixRe "" (replaceAll honorificRe "" name))).
Proof. destruct name; reflexivity. Qed.

Lemma cleanName_singleSpaced (raw : string) : singleSpaced (cleanName raw) = true.
Proof.
  rewrite cleanName_steps. unfold trim.
  apply trimEnd_singleSpaced, trimStart_singleSpaced, collapse_singleSpaced.
Qed.

Lemma cleanName_trimmed (raw : string) : trimmed (cleanName raw) = true.
Proof.
  rewrite cleanName_steps. unfold trim, trimmed.
  rewrite trimEnd_noLeading by apply trimStart_noLeading.
  apply trimEnd_last.
Qed.

Lemma toLowerCase_singleSpaced (s : string) :
  singleSpaced s = true -> singleSpaced (toLowerCase s) = true.
Proof.
  induction s as [|c s IH]; intros H; [reflexivity|].
  cbn [toLowerCase singleSpaced] in *.
  apply andb_true_iff in H. destruct H as [H1 H2].
  rewrite (IH H2), andb_true_r, toLowerChar_whitespace, toLowerChar_space.
  destruct s as [|d s]; [exact H1|].
  cbn [toLowerCase noLeadingWhiteSpace] in *. now rewrite toLowerChar_whitespace.
Qed.

Lemma splitWhitespace_singleSpaced (s : string) :
  singleSpaced s = true -> splitWhitespace s = split " " s.
Proof.
  induction s as [|c s IH]; intros H; [reflexivity|].
  cbn [singleSpaced] in H. apply andb_true_iff in H. destruct H as [H1 H2].
  cbn [splitWhitespace split]. rewrite (IH H2).
  destruct (isWhiteSpace c) eqn:Hc.
  - apply andb_true_iff in H1. now rewrite (proj1 H1).
  - destruct (Ascii.eqb c " ") eqn:Hs; [|reflexivity].
    apply Ascii.eqb_eq in Hs. subst c. discriminate Hc.
Qed.

(** On a cleaned name the split on the space is the split on white space. *)
Lemma nameParts_cleaned (raw : string) :
  nameParts (cleanName raw) = usableTokens (cleanName raw).
Proof.
  unfold nameParts, usableTokens.
  now rewrite splitWhitespace_singleSpaced
    by apply toLowerCase_singleSpaced, cleanName_singleSpaced.
Qed.

(* ================================================================== *)
(** ** The confidence scorer *)
(* ================================================================== *)

Lemma charAt0_take (s : string) : s <> "" -> interpolate (charAt0 s) = take 1 s.
Proof. destruct s; [congruence | reflexivity]. Qed.

(** The tokens the scorer keeps have more than one code unit. *)
Lemma nameParts_long (name token : string) :
  In token (nameParts name) -> 1 < String.length token.
Proof.
  unfold nameParts. intros H. apply filter_In in H. now apply Nat.ltb_lt.
Qed.

Lemma hd_In (l : list string) : l <> [] -> In (hd "" l) l.
Proof. destruct l; [congruence | now left]. Qed.

Lemma last_In (l : list string) : l <> [] -> In (last l "") l.
Proof.
  induction l as [|x l IH]; [congruence|]. intros _.
  destruct l as [|y l]; [now left|]. right. apply IH. discriminate.
Qed.

Lemma two_not_nil (l : list string) : 2 <= length l -> l <> [].
Proof. destruct l; simpl; [lia | discriminate]. Qed.

(** Past its guards, the scorer is the ordered list of checks. *)
Lemma scorer_ordered (name email : string) :
  name <> "" -> email <> "" -> 5 <= String.length email ->
  2 <= length (nameParts name) ->
  calculateEmailConfidence name email
  = firstMatch orderedChecks (emailLocal email)
      (hd "" (nameParts name)) (last (nameParts name) "").
Proof.
  intros Hn He Hl Hp. unfold calculateEmailConfidence.
  apply isEmpty_false in Hn; apply isEmpty_false in He. rewrite Hn, He.
  replace (String.length email <? 5) with false by (symmetry; apply Nat.ltb_ge; lia).
  replace (length (nameParts name) <? 2) with false by (symmetry; apply Nat.ltb_ge; lia).
  cbn [orb]. pose proof (two_not_nil _ Hp) as Hnil.
  rewrite at_first, at_last by exact Hnil.
  rewrite !charAt0_take.
  - reflexivity.
  - intros E. pose proof (nameParts_long _ _ (hd_In _ Hnil)) as L. rewrite E in L. simpl in L; lia.
  - intros E. pose proof (nameParts_long _ _ (last_In _ Hnil)) as L. rewrite E in L. simpl in L; lia.
Qed.

Lemma nameParts_empty : nameParts "" = [].
Proof. reflexivity. Qed.

Lemma Utf16_eqb_refl (a : Utf16.text) : Utf16.eqb a a = true.
Proof. induction a as [|x a IH]; simpl; [reflexivity | now rewrite N.eqb_refl, IH]. Qed.

Lemma Utf16_first (l : list Utf16.text) :
  l <> [] -> Utf16.interpolate (nth_error l 0) = hd [] l.
Proof. destruct l; [congruence | reflexivity]. Qed.

Lemma Utf16_last (l : list Utf16.text) :
  l <> [] -> Utf16.interpolate (nth_error l (length l - 1)) = last l [].
Proof.
  induction l as [|x l IH]; [congruence|]. intros _.
  destruct l as [|y l]; [reflexivity|].
  replace (length (x :: y :: l) - 1) with (S (length (y :: l) - 1)) by (simpl; lia).
  simpl nth_error. simpl last. apply IH. discriminate.
Qed.

(** Over 16-bit code units too, an email of at least 5 code units whose
    case-folded local part is first part, period, last part scores 0.95. *)
Lemma Utf16_perfect_match (name email : Utf16.text) :
  2 <= length (Utf16.nameParts name) ->
  5 <= length email ->
  Utf16.emailLocal email
  = (hd [] (Utf16.nameParts name) ++ [46%N] ++ last (Utf16.nameParts name) [])%list ->
  Utf16.calculateEmailConfidence name email = 0.95%Q.
Proof.
  intros Hp Hl He. unfold Utf16.calculateEmailConfidence.
  assert (Hn : Utf16.nameParts name <> []) by (intros E; rewrite E in Hp; simpl in Hp; lia).
  destruct name as [|c name]; [vm_compute in Hp; lia|].
  destruct email as [|d email]; [simpl in Hl; lia|].
  cbn [Utf16.isEmpty orb].
  replace (length (d :: email) <? 5) with false by (symmetry; apply Nat.ltb_ge; lia).
  replace (length (Utf16.nameParts (c :: name)) <? 2) with false
    by (symmetry; apply Nat.ltb_ge; lia).
  rewrite (Utf16_first _ Hn), (Utf16_last _ Hn), He. now rewrite Utf16_eqb_refl.
Qed.

(** C3, as the code has it: for a cleaned name whose white-space split
    leaves at least 2 tokens of more than one character, and an email of at
    least 5 characters whose case-folded local part is the first token, a
    period and the last token (the tokens being those of the case-folded
    name), the scorer returns 0.95.  More generally, past the guards the
    score is that of the first check that holds in the order 0.95, 0.85,
    0.85, 0.75, 0.6, 0.5, and 0.1 when none holds; the tokens the scorer
    takes (split on the space) are, on a cleaned name, those of the split on
    white space.  With the same bound on the length of the email, the first
    part holds over 16-bit code units as well. *)
Theorem C3_confidence_patterns :
  (forall raw email : string,
     let name := cleanName raw in
     let tokens := usableTokens name in
     2 <= length tokens ->
     5 <= String.length email ->
     emailLocal email = hd "" tokens ++ "." ++ last tokens "" ->
     calculateEmailConfidence name email = 0.95%Q)
  /\ (forall name email : string,
        name <> "" -> email <> "" -> 5 <= String.length email ->
        2 <= length (nameParts name) ->
        calculateEmailConfidence name email
        = firstMatch orderedChecks (emailLocal email)
            (hd "" (nameParts name)) (last (nameParts name) ""))
  /\ (forall raw : string, nameParts (cleanName raw) = usableTokens (cleanName raw))
  /\ (forall name email : Utf16.text,
        2 <= length (Utf16.nameParts name) ->
        5 <= length email ->
        Utf16.emailLocal email
        = (hd [] (Utf16.nameParts name) ++ [46%N] ++ last (Utf16.nameParts name) [])%list ->
        Utf16.calculateEmailConfidence name email = 0.95%Q).
Proof.
  split; [|split; [exact scorer_ordered
                  | split; [exact nameParts_cleaned | exact Utf16_perfect_match]]].
  intros raw email name tokens Ht Hlen Hl.
  subst tokens name. rewrite <- nameParts_cleaned in Ht, Hl.
  set (name := cleanName raw) in *.
  rewrite scorer_ordered; try assumption.
  - cbn [firstMatch orderedChecks]. now rewrite Hl, String.eqb_refl.
  - intros E. rewrite E, nameParts_empty in Ht. simpl in Ht. lia.
  - intros E. rewrite E in Hlen. simpl in Hlen. lia.
Qed.

Lemma C3_confidence_patterns_witness :
  calculateEmailConfidence (cleanName "Dr. Jane A. Smith, Jr.") "Jane.Smith@example.edu"
  = 0.95%Q.
Proof.
  apply (proj1 C3_confidence_patterns "Dr. Jane A. Smith, Jr." "Jane.Smith@example.edu").
  - vm_compute. lia.
  - vm_compute. lia.
  - reflexivity.
Defined.

(** C3 as stated fails on an email that case folding lengthens: the name
    "i" U+0307 " ab" is a cleaned name with the two usable tokens "i" U+0307
    and "ab"; the email U+0130 ".ab" has the case-folded local part "i"
    U+0307 ".ab", the first token, a period and the last; but the email has
    4 code units, and the scorer, which tests the length before it folds
    the case, returns 0.1. *)
Lemma C3_counterexample :
  Utf16.cleanName Utf16.dottedName = Utf16.dottedName
  /\ Utf16.usableTokens Utf16.dottedName = [[105; 775]; [97; 98]]%N
  /\ Utf16.emailLocal Utf16.dottedEmail = ([105; 775] ++ [46] ++ [97; 98])%N%list
  /\ Utf16.calculateEmailConfidence Utf16.dottedName Utf16.dottedEmail = 0.1%Q
  /\ ~ (Utf16.calculateEmailConfidence Utf16.dottedName Utf16.dottedEmail == 0.95)%Q.
Proof.
  split; [reflexivity|]. split; [reflexivity|]. split; [reflexivity|].
  split; [reflexivity|]. vm_compute. discriminate.
Qed.



(* ================================================================== *)
(** ** Honorifics and suffix qualifiers *)
(* ================================================================== *)

Lemma prefix_nil (s : string) : String.prefix "" s = true.
Proof. now destruct s. Qed.

(** A code unit that does not occur in the pattern stops it like the end
    of the subject does. *)
Lemma prefix_barrier (p x q : string) (c : ascii) :
  without c p = true ->
  String.prefix p (x ++ String c q) = String.prefix p x.
Proof.
  revert p; induction x as [|b x IH]; intros [|a p] H; try reflexivity.
  - cbn [without] in H. apply andb_true_iff in H. destruct H as [H _].
    simpl. destruct (ascii_dec a c) as [->|]; [|reflexivity].
    now rewrite Ascii.eqb_refl in H.
  - cbn [without] in H. apply andb_true_iff in H. destruct H as [_ H].
    simpl. destruct (ascii_dec a b); [now apply IH | reflexivity].
Qed.

Lemma span_barrier (cls : ascii -> bool) (x q : string) (c : ascii) :
  cls c = false -> span cls (x ++ String c q) = span cls x.
Proof.
  intros H. induction x as [|b x IH]; simpl; [now rewrite H|].
  destruct (cls b); [now rewrite IH | reflexivity].
Qed.

Lemma literalCI_barrier (p y q : string) (c : ascii) :
  free c p = true -> literalCI p (y ++ String c q) = literalCI p y.
Proof.
  intros H. unfold literalCI. rewrite canon_app. cbn [canon].
  now rewrite prefix_barrier.
Qed.

Lemma literalCI_barrier_tail (p x q : string) (b c : ascii) :
  tailFree c p = true ->
  literalCI p (String b x ++ String c q) = literalCI p (String b x).
Proof.
  unfold tailFree, literalCI. intros H.
  change (String b x ++ String c q) with (String b (x ++ String c q)).
  cbn [canon]. rewrite canon_app. cbn [canon].
  destruct (canon p) as [|a t]; [reflexivity|].
  simpl. destruct (ascii_dec a (Canonicalize b)); [|reflexivity].
  now rewrite prefix_barrier.
Qed.

Lemma alternatives_barrier (ps : list string) (y q : string) (c : ascii) :
  forallb (free c) ps = true ->
  alternatives (map literalCI ps) (y ++ String c q) = alternatives (map literalCI ps) y.
Proof.
  induction ps as [|p ps IH]; intros H; [reflexivity|].
  cbn [forallb] in H. apply andb_true_iff in H. destruct H as [H1 H2].
  cbn [map alternatives]. now rewrite literalCI_barrier, IH.
Qed.

Lemma alternatives_barrier_tail (ps : list string) (x q : string) (b c : ascii) :
  forallb (tailFree c) ps = true ->
  alternatives (map literalCI ps) (String b x ++ String c q)
  = alternatives (map literalCI ps) (String b x).
Proof.
  induction ps as [|p ps IH]; intros H; [reflexivity|].
  cbn [forallb] in H. apply andb_true_iff in H. destruct H as [H1 H2].
  cbn [map alternatives]. now rewrite literalCI_barrier_tail, IH.
Qed.

(** The canonical form of an honorific is that of one of the six literals. *)
Lemma isHonorific_canon (h : string) :
  isHonorific h = true -> In (canon h) (map canon honorifics).
Proof.
  unfold isHonorific, sameUpToCase. cbn [existsb]. intros H.
  repeat (apply orb_true_iff in H; destruct H as [H | H];
          [apply String.eqb_eq in H; rewrite H; simpl; tauto|]).
  discriminate.
Qed.

Lemma canon_cons (h P : string) (C : ascii) :
  canon h = String C P -> exists c t, h = String c t /\ Canonicalize c = C /\ canon t = P.
Proof. destruct h as [|c t]; [discriminate|]. intros [= H1 H2]. now exists c, t. Qed.

(** At an honorific the pattern matches, and it matches the honorific. *)
Lemma honorificRe_here (h after : string) :
  isHonorific h = true -> honorificRe (h ++ after) = Some (String.length h).
Proof.
  intros H. apply isHonorific_canon in H.
  assert (L : String.length h = String.length (canon h)) by now rewrite canon_length.
  unfold honorificRe. cbn [honorifics map alternatives]. unfold literalCI.
  rewrite canon_app, L.
  simpl in H. decompose [or] H; try contradiction;
    match goal with E : _ = canon h |- _ => rewrite <- E end;
    simpl; rewrite ?prefix_nil; reflexivity.
Qed.

(** No match that starts before an honorific reaches into it. *)
Lemma honorificRe_before (x h after : string) :
  x <> "" -> isHonorific h = true -> honorificRe (x ++ h ++ after) = honorificRe x.
Proof.
  intros Hx H. apply isHonorific_canon in H.
  destruct x as [|b x]; [congruence|].
  assert (E : exists c t, h = String c t /\ forallb (tailFree c) honorifics = true).
  { simpl in H. decompose [or] H; try contradiction;
      match goal with E : _ = canon h |- _ =>
        symmetry in E; destruct (canon_cons _ _ _ E) as (c & t & -> & Hc & _)
      end; exists c, t; (split; [reflexivity|]);
      unfold tailFree; rewrite Hc; reflexivity. }
  destruct E as (c & t & -> & Hfree).
  unfold honorificRe. change (String c t ++ after) with (String c (t ++ after)).
  now apply alternatives_barrier_tail.
Qed.

Lemma removeHonorifics_app (before h after : string) :
  isHonorific h = true ->
  replaceAll honorificRe "" (before ++ h ++ after)
  = replaceAll honorificRe "" before ++ replaceAll honorificRe "" after.
Proof.
  intros H.
  rewrite (replaceAll_app _ _ honorificRe_bounds)
    by (intros x Hx; now apply honorificRe_before).
  f_equal.
  rewrite (replaceAll_match _ _ honorificRe_bounds _ _ (honorificRe_here h after H)).
  now rewrite drop_app.
Qed.

(** C10: every occurrence of an honorific token in the argument of
    [cleanName], in any case and at any position, is deleted: the
    replacement of honorifics maps a text with the token between two parts
    to the results for the two parts, put together, and the name is cleaned
    from there.  So the token goes from the middle of a name and from inside
    a longer word, as the "Professor" of "Professorship". *)
Theorem C10_honorifics_anywhere :
  forall before h after : string,
    isHonorific h = true ->
    replaceAll honorificRe "" (before ++ h ++ after)
    = replaceAll honorificRe "" before ++ replaceAll honorificRe "" after
    /\ cleanName (before ++ h ++ after)
       = trim (replaceAll whitespaceRe " "
                 (replaceAll suffixRe ""
                    (replaceAll honorificRe "" before ++ replaceAll honorificRe "" after)))
    /\ cleanName "Professorship" = "ship"
    /\ cleanName "Jane Dr. Smith" = "Jane Smith".
Proof.
  intros before h after H. split; [now apply removeHonorifics_app|].
  split; [|split; reflexivity].
  now rewrite cleanName_steps, removeHonorifics_app.
Qed.

Lemma C10_honorifics_anywhere_witness :
  cleanName ("Jane " ++ "PROF." ++ " Smith")
  = trim (replaceAll whitespaceRe " "
            (replaceAll suffixRe ""
               (replaceAll honorificRe "" "Jane " ++ replaceAll honorificRe "" " Smith"))).
Proof.
  apply (proj1 (proj2 (C10_honorifics_anywhere "Jane " "PROF." " Smith" eq_refl))).
Defined.

(** No match of either pattern that starts before a comma reaches into it. *)
Lemma honorificRe_before_comma (x q : string) :
  x <> "" -> honorificRe (x ++ String "," q) = honorificRe x.
Proof.
  destruct x as [|b x]; [congruence|]. intros _.
  unfold honorificRe. now apply alternatives_barrier_tail.
Qed.

Lemma suffixRe_before_comma (x q : string) :
  x <> "" -> suffixRe (x ++ String "," q) = suffixRe x.
Proof.
  destruct x as [|b x]; [congruence|]. intros _.
  change (String b x ++ String "," q) with (String b (x ++ String "," q)).
  unfold suffixRe. destruct (Ascii.eqb b ","); [|reflexivity].
  rewrite span_barrier by reflexivity.
  pose proof (span_le isWhiteSpace x) as Ln. set (n := span isWhiteSpace x) in *.
  rewrite drop_app_le by exact Ln.
  rewrite alternatives_barrier by reflexivity.
  destruct (alternatives (map literalCI qualifiers) (drop n x)) as [k|] eqn:E;
    [|reflexivity].
  apply alternatives_literalCI_bounds in E. destruct E as (p & _ & -> & Lk).
  rewrite drop_length in Lk.
  rewrite drop_app_le by lia.
  unfold startsWith. now rewrite prefix_barrier by reflexivity.
Qed.

(** A text that starts with a comma, holds no honorific and is one match of
    the suffix pattern goes when it ends the name. *)
Lemma suffix_removed (name q : string) :
  replaceAll honorificRe "" (String "," q) = String "," q ->
  replaceAll suffixRe "" (String "," q) = "" ->
  cleanName (name ++ String "," q) = cleanName name.
Proof.
  intros Hh Hs. rewrite !cleanName_steps.
  rewrite (replaceAll_app _ _ honorificRe_bounds)
    by (intros x Hx; now apply honorificRe_before_comma).
  rewrite Hh.
  rewrite (replaceAll_app _ _ suffixRe_bounds)
    by (intros x Hx; now apply suffixRe_before_comma).
  now rewrite Hs, append_nil_r.
Qed.

Lemma Canonicalize_inv (c d : ascii) :
  Canonicalize c = d -> c = d \/ c = ascii_of_nat (code d + 32).
Proof.
  intros <-.
  destruct c as [[] [] [] [] [] [] [] []]; vm_compute;
    solve [left; reflexivity | right; reflexivity].
Qed.

Lemma suffixQualifier_match (q : string) :
  isSuffixQualifier q = true ->
  exists q', q = String "," q'
             /\ replaceAll honorificRe "" q = q
             /\ replaceAll suffixRe "" q = "".
Proof.
  unfold isSuffixQualifier, sameUpToCase. cbn [existsb]. intros H.
  repeat (apply orb_true_iff in H; destruct H as [H | H];
          [apply String.eqb_eq in H;
           match type of H with
           | canon ?x = ?rhs => let r := eval vm_compute in rhs in change (canon x = r) in H
           end;
           canon_cases Canonicalize_inv H;
           eexists; repeat split; reflexivity|]).
  discriminate.
Qed.



(* ================================================================== *)
(** ** Further properties of the confidence scorer *)
(* ================================================================== *)

Lemma toLowerChar_idempotent (c : ascii) : toLowerChar (toLowerChar c) = toLowerChar c.
Proof. each_code_unit c. Qed.

Lemma toLowerChar_at (c : ascii) : Ascii.eqb (toLowerChar c) "@" = Ascii.eqb c "@".
Proof. each_code_unit c. Qed.

Lemma toLowerCase_idempotent (s : string) : toLowerCase (toLowerCase s) = toLowerCase s.
Proof.
  induction s as [|c s IH]; simpl; [reflexivity|].
  now rewrite toLowerChar_idempotent, IH.
Qed.

Lemma toLowerCase_isEmpty (s : string) : isEmpty (toLowerCase s) = isEmpty s.
Proof. now destruct s. Qed.

Lemma nameParts_toLowerCase (name : string) :
  nameParts (toLowerCase name) = nameParts name.
Proof. unfold nameParts. now rewrite toLowerCase_idempotent. Qed.

(** X1: the scorer only ever returns one of its seven literals, so every
    confidence lies between 0.1 and 0.95. *)
Theorem scorer_range :
  forall name email : string,
    In (calculateEmailConfidence name email)
       [0.1%Q; 0.3%Q; 0.5%Q; 0.6%Q; 0.75%Q; 0.85%Q; 0.95%Q]
    /\ (0.1 <= calculateEmailConfidence name email <= 0.95)%Q.
Proof.
  intros name email. unfold calculateEmailConfidence.
  repeat match goal with
         | |- context [if ?b then _ else _] => destruct b
         end;
    (split; [simpl; tauto | split; vm_compute; discriminate]).
Qed.

(** X3: the scorer does not see the case of the name: it gives the
    case-folded name the score of the name itself. *)
Theorem scorer_case_insensitive :
  forall name email : string,
    calculateEmailConfidence (toLowerCase name) email
    = calculateEmailConfidence name email.
Proof.
  intros name email. unfold calculateEmailConfidence.
  now rewrite toLowerCase_isEmpty, nameParts_toLowerCase.
Qed.

(** X2: an email scores above 0.5, and so counts as name-matched, only if
    the name has two usable parts and the case-folded local part of the
    email contains the first or the last of them. *)
Theorem scorer_name_matched_contains :
  forall name email : string,
    (0.5 < calculateEmailConfidence name email)%Q ->
    2 <= length (nameParts name)
    /\ (includes (emailLocal email) (hd "" (nameParts name)) = true
        \/ includes (emailLocal email) (last (nameParts name) "") = true).
Proof.
  intros name email. unfold calculateEmailConfidence.
  destruct (isEmpty name || isEmpty email || (String.length email <? 5));
    [intros H; vm_compute in H; discriminate|].
  destruct (length (nameParts name) <? 2) eqn:Hp;
    [intros H; vm_compute in H; discriminate|].
  apply Nat.ltb_ge in Hp. pose proof (two_not_nil _ Hp) as Hnil.
  rewrite at_first, at_last by exact Hnil.
  set (f := hd "" (nameParts name)). set (l := last (nameParts name) "").
  set (e := emailLocal email).
  destruct (String.eqb e (f ++ "." ++ l)) eqn:E1.
  { intros _. apply String.eqb_eq in E1. rewrite E1. split; [exact Hp|].
    left. apply includes_app_l. }
  destruct (String.eqb e (f ++ "." ++ interpolate (charAt0 l))) eqn:E2.
  { intros _. apply String.eqb_eq in E2. rewrite E2. split; [exact Hp|].
    left. apply includes_app_l. }
  destruct (String.eqb e (interpolate (charAt0 f) ++ "." ++ l)) eqn:E3.
  { intros _. apply String.eqb_eq in E3. rewrite E3. split; [exact Hp|].
    right. rewrite <- append_assoc. apply includes_app_r. }
  destruct (includes e f) eqn:If.
  { intros _. split; [exact Hp | now left]. }
  cbn [andb]. destruct (includes e l); intros H; vm_compute in H; discriminate.
Qed.

Lemma scorer_name_matched_contains_witness :
  2 <= length (nameParts "John Doe")
  /\ (includes (emailLocal "j.doe@school.edu") (hd "" (nameParts "John Doe")) = true
      \/ includes (emailLocal "j.doe@school.edu") (last (nameParts "John Doe") "") = true).
Proof.
  apply (scorer_name_matched_contains "John Doe" "j.doe@school.edu").
  reflexivity.
Defined.

(* ================================================================== *)
(** ** Further properties of the field cleaners *)
(* ================================================================== *)

Lemma trimStart_fixed (s : string) :
  noLeadingWhiteSpace s = true -> trimStart s = s.
Proof.
  destruct s as [|c s]; [reflexivity|]. simpl. intros H.
  apply negb_true_iff in H. now rewrite H.
Qed.

Lemma trimEnd_fixed (s : string) :
  match lastChar s with
  | Some d => negb (isWhiteSpace d)
  | None => true
  end = true ->
  trimEnd s = s.
Proof.
  induction s as [|c s IH]; [reflexivity|].
  destruct s as [|d s].
  - simpl. intros H. apply negb_true_iff in H. now rewrite H.
  - intros H. change (lastChar (String c (String d s))) with (lastChar (String d s)) in H.
    cbn [trimEnd] in IH |- *. rewrite (IH H). reflexivity.
Qed.

Lemma trim_trimmed (s : string) : trimmed (trim s) = true.
Proof.
  unfold trim, trimmed.
  rewrite trimEnd_noLeading by apply trimStart_noLeading.
  apply trimEnd_last.
Qed.

Lemma trim_fixed (s : string) : trimmed s = true -> trim s = s.
Proof.
  unfold trimmed, trim. intros H. apply andb_true_iff in H. destruct H as [H1 H2].
  rewrite (trimStart_fixed _ H1). now apply trimEnd_fixed.
Qed.

Lemma trim_idempotent (s : string) : trim (trim s) = trim s.
Proof. apply trim_fixed, trim_trimmed. Qed.

Lemma toLowerCase_trimStart (s : string) :
  toLowerCase (trimStart s) = trimStart (toLowerCase s).
Proof.
  induction s as [|c s IH]; [reflexivity|].
  cbn [trimStart toLowerCase]. rewrite toLowerChar_whitespace.
  now destruct (isWhiteSpace c).
Qed.

Lemma toLowerCase_trimEnd (s : string) :
  toLowerCase (trimEnd s) = trimEnd (toLowerCase s).
Proof.
  induction s as [|c s IH]; [reflexivity|].
  cbn [trimEnd toLowerCase]. rewrite <- IH, toLowerChar_whitespace.
  destruct (trimEnd s); [now destruct (isWhiteSpace c) | reflexivity].
Qed.

Lemma toLowerCase_trim (s : string) : toLowerCase (trim s) = trim (toLowerCase s).
Proof. unfold trim. now rewrite toLowerCase_trimEnd, toLowerCase_trimStart. Qed.

(** Occurrence of a single code unit. *)
Lemma includes_char (s : string) (c : ascii) :
  includes s (String c "") = negb (without c s).
Proof.
  induction s as [|a s IH]; [reflexivity|].
  cbn [includes without]. rewrite IH. simpl String.prefix.
  destruct (ascii_dec c a) as [->|Hne].
  - rewrite Ascii.eqb_refl, prefix_nil. reflexivity.
  - replace (Ascii.eqb a c) with false; [reflexivity|].
    symmetry. apply Ascii.eqb_neq. congruence.
Qed.

Lemma without_toLowerCase_at (s : string) :
  without "@" (toLowerCase s) = without "@" s.
Proof.
  induction s as [|a s IH]; [reflexivity|].
  cbn [toLowerCase without]. now rewrite toLowerChar_at, IH.
Qed.

Lemma whitespace_differs (a c : ascii) :
  isWhiteSpace a = true -> isWhiteSpace c = false -> Ascii.eqb a c = false.
Proof. intros Ha Hc. apply Ascii.eqb_neq. intros ->. congruence. Qed.

Lemma without_trimStart (c : ascii) (s : string) :
  isWhiteSpace c = false -> without c (trimStart s) = without c s.
Proof.
  intros Hc. induction s as [|a s IH]; [reflexivity|].
  cbn [trimStart]. destruct (isWhiteSpace a) eqn:Ha; [|reflexivity].
  cbn [without]. now rewrite (whitespace_differs _ _ Ha Hc).
Qed.

Lemma without_trimEnd (c : ascii) (s : string) :
  isWhiteSpace c = false -> without c (trimEnd s) = without c s.
Proof.
  intros Hc. induction s as [|a s IH]; [reflexivity|].
  cbn [trimEnd without]. rewrite <- IH.
  destruct (trimEnd s) as [|d r]; [|reflexivity].
  destruct (isWhiteSpace a) eqn:Ha.
  - now rewrite (whitespace_differs _ _ Ha Hc).
  - cbn [without]. reflexivity.
Qed.

Lemma without_trim (c : ascii) (s : string) :
  isWhiteSpace c = false -> without c (trim s) = without c s.
Proof. intros Hc. unfold trim. now rewrite without_trimEnd, without_trimStart. Qed.

(** What [cleanEmail] returns: nothing, or the trimmed lower case of an
    argument with an at sign, which keeps it. *)
Lemma cleanEmail_cases (email : string) :
  cleanEmail email = ""
  \/ (cleanEmail email = trim (toLowerCase email)
      /\ includes (cleanEmail email) "@" = true).
Proof.
  unfold cleanEmail. destruct (isEmpty email); [now left|].
  destruct (includes email "@") eqn:E; [right | now left]. cbn [negb orb].
  split; [reflexivity|]. rewrite includes_char in E |- *.
  now rewrite without_trim, without_toLowerCase_at by reflexivity.
Qed.

Lemma cleanEmail_lower (email : string) :
  toLowerCase (cleanEmail email) = cleanEmail email.
Proof.
  destruct (cleanEmail_cases email) as [-> | [-> _]]; [reflexivity|].
  now rewrite toLowerCase_trim, toLowerCase_idempotent.
Qed.

Lemma cleanEmail_trimmed (email : string) : trimmed (cleanEmail email) = true.
Proof.
  destruct (cleanEmail_cases email) as [-> | [-> _]]; [reflexivity | apply trim_trimmed].
Qed.

(** X4: what [cleanEmail] returns is empty or contains an at sign; it is in
    lower case and has no white space at either end; cleaning it again
    changes nothing. *)
Theorem cleanEmail_normal_form :
  forall email : string,
    (cleanEmail email = "" \/ includes (cleanEmail email) "@" = true)
    /\ toLowerCase (cleanEmail email) = cleanEmail email
    /\ trimmed (cleanEmail email) = true
    /\ cleanEmail (cleanEmail email) = cleanEmail email.
Proof.
  intros email.
  split; [destruct (cleanEmail_cases email) as [E | [_ E]]; [now left | now right]|].
  split; [apply cleanEmail_lower|]. split; [apply cleanEmail_trimmed|].
  destruct (cleanEmail_cases email) as [-> | [_ Hat]]; [reflexivity|].
  pose proof (cleanEmail_lower email) as Hlow.
  pose proof (cleanEmail_trimmed email) as Htrim.
  unfold cleanEmail at 1. rewrite Hat, Hlow, (trim_fixed _ Htrim).
  now destruct (cleanEmail email).
Qed.

(** *** Lengths *)

Section ReplaceLength.

Variable re : matcher.
Variable rep : string.
Hypothesis re_bounds : forall s n, re s = Some n -> 0 < n <= String.length s.
Hypothesis rep_short : forall s n, re s = Some n -> String.length rep <= n.

Lemma replaceAll_length (s : string) :
  String.length (replaceAll re rep s) <= String.length s.
Proof.
  remember (String.length s) as m eqn:Hm.
  revert s Hm; induction m as [m IH] using lt_wf_ind; intros s Hm.
  destruct s as [|c s]; [rewrite (replaceAll_nil _ _ re_bounds); simpl; lia|].
  destruct (re (String c s)) as [n|] eqn:E.
  - pose proof (re_bounds _ _ E) as B. pose proof (rep_short _ _ E) as R.
    rewrite (replaceAll_match _ _ re_bounds _ _ E), length_append.
    assert (L : String.length (drop n (String c s)) < m)
      by (rewrite drop_length; subst m; cbn [String.length] in *; lia).
    pose proof (IH _ L _ eq_refl) as IH'. rewrite drop_length in IH'. lia.
  - rewrite (replaceAll_skip _ _ _ _ E). cbn [String.length].
    assert (L : String.length s < m) by (subst m; simpl; lia).
    pose proof (IH _ L _ eq_refl). lia.
Qed.

End ReplaceLength.

Lemma trimStart_length (s : string) : String.length (trimStart s) <= String.length s.
Proof.
  induction s as [|c s IH]; simpl; [lia|].
  destruct (isWhiteSpace c); simpl; lia.
Qed.

Lemma trimEnd_length (s : string) : String.length (trimEnd s) <= String.length s.
Proof.
  induction s as [|c s IH]; simpl; [lia|].
  destruct (trimEnd s); [destruct (isWhiteSpace c)|]; simpl in *; lia.
Qed.

Lemma trim_length (s : string) : String.length (trim s) <= String.length s.
Proof.
  unfold trim. pose proof (trimEnd_length (trimStart s)).
  pose proof (trimStart_length s). lia.
Qed.

Lemma replaceAtStart_length (re : matcher) (s : string) :
  String.length (replaceAtStart re "" s) <= String.length s.
Proof.
  unfold replaceAtStart. destruct (re s); [|lia].
  simpl. rewrite drop_length. lia.
Qed.

Lemma nonPhoneRe_bounds (s : string) (n : nat) :
  nonPhoneRe s = Some n -> 0 < n <= String.length s.
Proof.
  unfold nonPhoneRe. destruct s as [|c s]; [discriminate|].
  destruct (isPhoneChar c); [discriminate|]. intros [= <-]. simpl. lia.
Qed.

Lemma collapse_length (s : string) :
  String.length (replaceAll whitespaceRe " " s) <= String.length s.
Proof.
  apply (replaceAll_length _ _ whitespaceRe_bounds).
  intros x n H. apply whitespaceRe_bounds in H. simpl. lia.
Qed.

Lemma remove_length (re : matcher) (s : string) :
  (forall x n, re x = Some n -> 0 < n <= String.length x) ->
  String.length (replaceAll re "" s) <= String.length s.
Proof.
  intros B. apply (replaceAll_length _ _ B). intros x n _. simpl. lia.
Qed.

(** X6: the cleaners of names, titles and phone numbers never return a text
    longer than the one they are given. *)
Theorem cleaners_never_lengthen :
  forall s : string,
    String.length (cleanName s) <= String.length s
    /\ String.length (cleanTitle s) <= String.length s
    /\ String.length (cleanPhone s) <= String.length s.
Proof.
  intros s. repeat split.
  - rewrite cleanName_steps.
    pose proof (remove_length honorificRe s honorificRe_bounds).
    pose proof (remove_length suffixRe (replaceAll honorificRe "" s) suffixRe_bounds).
    pose proof (collapse_length (replaceAll suffixRe "" (replaceAll honorificRe "" s))).
    pose proof (trim_length
      (replaceAll whitespaceRe " " (replaceAll suffixRe "" (replaceAll honorificRe "" s)))).
    lia.
  - unfold cleanTitle. destruct (isEmpty s); [simpl; lia|].
    pose proof (replaceAtStart_length bulletRe s).
    pose proof (collapse_length (replaceAtStart bulletRe "" s)).
    pose proof (trim_length (replaceAll whitespaceRe " " (replaceAtStart bulletRe "" s))).
    lia.
  - unfold cleanPhone. destruct (isEmpty s); [simpl; lia|].
    pose proof (replaceAtStart_length phoneLabelRe s).
    pose proof (remove_length nonPhoneRe (replaceAtStart phoneLabelRe "" s) nonPhoneRe_bounds).
    pose proof (trim_length
      (replaceAll nonPhoneRe "" (replaceAtStart phoneLabelRe "" s))).
    lia.
Qed.

Lemma cleanTitle_singleSpaced (title : string) : singleSpaced (cleanTitle title) = true.
Proof.
  unfold cleanTitle. destruct (isEmpty title); [reflexivity|].
  unfold trim. apply trimEnd_singleSpaced, trimStart_singleSpaced, collapse_singleSpaced.
Qed.

Lemma cleanTitle_trimmed (title : string) : trimmed (cleanTitle title) = true.
Proof.
  unfold cleanTitle. destruct (isEmpty title); [reflexivity | apply trim_trimmed].
Qed.

(** X7: in what [cleanTitle] returns all white space is single spaces, and
    none stands at either end. *)
Theorem cleanTitle_normal_form :
  forall title : string,
    singleSpaced (cleanTitle title) = true /\ trimmed (cleanTitle title) = true.
Proof.
  intros title. split; [apply cleanTitle_singleSpaced | apply cleanTitle_trimmed].
Qed.

(** *** The phone cleaner *)

Lemma every_trimStart (cls : ascii -> bool) (s : string) :
  every cls s = true -> every cls (trimStart s) = true.
Proof.
  induction s as [|c s IH]; intros H; [reflexivity|].
  cbn [trimStart]. destruct (isWhiteSpace c); [|exact H].
  cbn [every] in H. apply andb_true_iff in H. now apply IH.
Qed.

Lemma every_trimEnd (cls : ascii -> bool) (s : string) :
  every cls s = true -> every cls (trimEnd s) = true.
Proof.
  induction s as [|c s IH]; intros H; [reflexivity|].
  cbn [every] in H. apply andb_true_iff in H. destruct H as [Hc Hs].
  cbn [trimEnd]. specialize (IH Hs). destruct (trimEnd s) as [|d r].
  - destruct (isWhiteSpace c); [reflexivity|]. cbn [every]. now rewrite Hc.
  - cbn [every] in IH |- *. now rewrite Hc, IH.
Qed.

Lemma removeNonPhone_every (s : string) :
  every isPhoneChar (replaceAll nonPhoneRe "" s) = true.
Proof.
  induction s as [|c s IH]; [now rewrite (replaceAll_nil nonPhoneRe "" nonPhoneRe_bounds)|].
  destruct (isPhoneChar c) eqn:E.
  - rewrite (replaceAll_skip nonPhoneRe "") by (simpl; now rewrite E).
    cbn [every]. now rewrite E, IH.
  - rewrite (replaceAll_match _ _ nonPhoneRe_bounds (String c s) 1)
      by (simpl; now rewrite E).
    exact IH.
Qed.

Lemma isDigit_phoneChar (c : ascii) : isDigit c = true -> isPhoneChar c = true.
Proof. intros H. unfold isPhoneChar. now rewrite H. Qed.

Lemma isDigit_not_whitespace (c : ascii) : isWhiteSpace c = true -> isDigit c = false.
Proof. each_code_unit c. Qed.

Lemma isDigit_Canonicalize (c : ascii) : isDigit (Canonicalize c) = isDigit c.
Proof. each_code_unit c. Qed.

Lemma removeNonPhone_digits (s : string) :
  digits (replaceAll nonPhoneRe "" s) = digits s.
Proof.
  induction s as [|c s IH]; [now rewrite (replaceAll_nil nonPhoneRe "" nonPhoneRe_bounds)|].
  destruct (isPhoneChar c) eqn:E.
  - rewrite (replaceAll_skip nonPhoneRe "") by (simpl; now rewrite E).
    cbn [digits]. now rewrite IH.
  - rewrite (replaceAll_match _ _ nonPhoneRe_bounds (String c s) 1)
      by (simpl; now rewrite E).
    cbn [drop append digits]. rewrite IH.
    destruct (isDigit c) eqn:D; [|reflexivity].
    apply isDigit_phoneChar in D. congruence.
Qed.

Lemma digits_trimStart (s : string) : digits (trimStart s) = digits s.
Proof.
  induction s as [|c s IH]; [reflexivity|].
  cbn [trimStart]. destruct (isWhiteSpace c) eqn:E; [|reflexivity].
  cbn [digits]. now rewrite (isDigit_not_whitespace _ E).
Qed.

Lemma digits_trimEnd (s : string) : digits (trimEnd s) = digits s.
Proof.
  induction s as [|c s IH]; [reflexivity|].
  cbn [trimEnd digits]. rewrite <- IH. destruct (trimEnd s) as [|d r]; [|reflexivity].
  destruct (isWhiteSpace c) eqn:E; [|reflexivity].
  now rewrite (isDigit_not_whitespace _ E).
Qed.

Lemma digits_app (a b : string) : digits (a ++ b) = digits a ++ digits b.
Proof.
  induction a as [|c a IH]; [reflexivity|].
  simpl. rewrite IH. now destruct (isDigit c).
Qed.

Lemma digits_canon_none (s : string) : digits (canon s) = "" -> digits s = "".
Proof.
  induction s as [|c s IH]; [reflexivity|].
  cbn [canon digits]. rewrite isDigit_Canonicalize.
  destruct (isDigit c); [discriminate | exact IH].
Qed.

Lemma digits_span_whitespace (s : string) :
  digits (take (span isWhiteSpace s) s) = "".
Proof.
  induction s as [|c s IH]; [reflexivity|].
  cbn [span]. destruct (isWhiteSpace c) eqn:E; [|reflexivity].
  cbn [take digits]. now rewrite (isDigit_not_whitespace _ E).
Qed.

Lemma canon_take (n : nat) (s : string) : canon (take n s) = take n (canon s).
Proof.
  revert s; induction n as [|n IH]; intros [|c s]; try reflexivity.
  simpl. now rewrite IH.
Qed.

Lemma take_prefix (p s : string) :
  String.prefix p s = true -> take (String.length p) s = p.
Proof.
  intros H. rewrite (prefix_inv _ _ H) at 1.
  rewrite <- (Nat.add_0_r (String.length p)), take_app.
  destruct (drop _ s); simpl; apply append_nil_r.
Qed.

Lemma alternatives_literalCI_prefix (ps : list string) (s : string) (n : nat) :
  alternatives (map literalCI ps) s = Some n ->
  exists p, In p ps /\ n = String.length p /\ canon (take n s) = canon p.
Proof.
  induction ps as [|p ps IH]; simpl; [discriminate|].
  unfold literalCI at 1. destruct (String.prefix (canon p) (canon s)) eqn:E.
  - intros [= <-]. exists p. split; [now left|]. split; [reflexivity|].
    rewrite canon_take, <- (canon_length p). now apply take_prefix.
  - intros H. destruct (IH H) as (p' & Hin & Hp'). exists p'. split; [now right | exact Hp'].
Qed.

Lemma take_take_drop (a b : nat) (s : string) :
  take (a + b) s = take a s ++ take b (drop a s).
Proof.
  revert s; induction a as [|a IH]; intros s; [reflexivity|].
  destruct s as [|c s]; [now destruct b|]. simpl. now rewrite IH.
Qed.

(** The label the phone cleaner strips holds no digit. *)
Lemma phoneLabel_digits (s : string) (n : nat) :
  phoneLabelRe s = Some n -> digits (take n s) = "".
Proof.
  unfold phoneLabelRe.
  destruct (alternatives _ s) as [k|] eqn:E; [|discriminate].
  apply alternatives_literalCI_prefix in E. destruct E as (p & Hin & _ & Hc).
  assert (Hk : digits (take k s) = "").
  { apply digits_canon_none. rewrite Hc.
    simpl in Hin. decompose [or] Hin; subst; try reflexivity; contradiction. }
  destruct (drop k s) as [|c r] eqn:D; [discriminate|].
  destruct (Ascii.eqb c ":") eqn:C; [|discriminate]. intros [= <-].
  apply Ascii.eqb_eq in C. subst c.
  rewrite <- Nat.add_assoc, take_take_drop, digits_app, Hk, D.
  change (1 + ?m) with (S m). cbn [take append digits].
  change (isDigit ":") with false. cbn iota. apply digits_span_whitespace.
Qed.

Lemma replaceAtStart_digits (s : string) :
  digits (replaceAtStart phoneLabelRe "" s) = digits s.
Proof.
  unfold replaceAtStart. destruct (phoneLabelRe s) as [n|] eqn:E; [|reflexivity].
  replace (digits s) with (digits (take n s ++ drop n s)) by now rewrite take_drop.
  now rewrite !digits_app, (phoneLabel_digits _ _ E).
Qed.

Lemma cleanPhone_chars (phone : string) : every isPhoneChar (cleanPhone phone) = true.
Proof.
  unfold cleanPhone. destruct (isEmpty phone); [reflexivity|].
  unfold trim. apply every_trimEnd, every_trimStart, removeNonPhone_every.
Qed.

Lemma cleanPhone_trimmed (phone : string) : trimmed (cleanPhone phone) = true.
Proof.
  unfold cleanPhone. destruct (isEmpty phone); [reflexivity | apply trim_trimmed].
Qed.

Lemma cleanPhone_digits (phone : string) : digits (cleanPhone phone) = digits phone.
Proof.
  unfold cleanPhone. destruct phone as [|c phone]; [reflexivity|]. cbn [isEmpty].
  unfold trim.
  now rewrite digits_trimEnd, digits_trimStart, removeNonPhone_digits,
    replaceAtStart_digits.
Qed.

(** X5: what [cleanPhone] returns holds nothing but digits, hyphens,
    parentheses, periods, plus signs and white space, none of it at either
    end; and it holds the digits of the argument, all of them, in order. *)
Theorem cleanPhone_normal_form :
  forall phone : string,
    every isPhoneChar (cleanPhone phone) = true
    /\ trimmed (cleanPhone phone) = true
    /\ digits (cleanPhone phone) = digits phone.
Proof.
  intros phone.
  split; [apply cleanPhone_chars | split; [apply cleanPhone_trimmed | apply cleanPhone_digits]].
Qed.

(** *** Blank names and bare honorifics *)

Lemma honorificRe_whitespace (c : ascii) (s : string) :
  isWhiteSpace c = true -> honorificRe (String c s) = None.
Proof. intros H. each_whitespace c H. Qed.

Lemma suffixRe_whitespace (c : ascii) (s : string) :
  isWhiteSpace c = true -> suffixRe (String c s) = None.
Proof. intros H. each_whitespace c H. Qed.

Lemma phoneLabel_whitespace (c : ascii) (s : string) :
  isWhiteSpace c = true ->
  alternatives (map literalCI ["Phone"; "Tel"; "Office"]) (String c s) = None.
Proof. intros H. each_whitespace c H. Qed.

Lemma isPhoneChar_whitespace (c : ascii) : isWhiteSpace c = true -> isPhoneChar c = true.
Proof. intros H. unfold isPhoneChar. rewrite H. now rewrite !orb_true_r. Qed.

Lemma isBullet_whitespace (c : ascii) : isWhiteSpace c = true -> isBullet c = false.
Proof. each_code_unit c. Qed.

Lemma at_whitespace (c : ascii) : isWhiteSpace c = true -> Ascii.eqb c "@" = false.
Proof. each_code_unit c. Qed.

Lemma replaceAll_untouched (re : matcher) (rep : string) (cls : ascii -> bool) (s : string) :
  (forall x n, re x = Some n -> 0 < n <= String.length x) ->
  (forall c x, cls c = true -> re (String c x) = None) ->
  every cls s = true -> replaceAll re rep s = s.
Proof.
  intros B N. induction s as [|c s IH]; intros H; [now apply replaceAll_nil|].
  cbn [every] in H. apply andb_true_iff in H. destruct H as [Hc Hs].
  rewrite (replaceAll_skip re rep c s (N c s Hc)). now rewrite IH.
Qed.

Lemma span_every (cls : ascii -> bool) (s : string) :
  every cls s = true -> span cls s = String.length s.
Proof.
  induction s as [|c s IH]; intros H; [reflexivity|].
  cbn [every] in H. apply andb_true_iff in H. destruct H as [Hc Hs].
  simpl. now rewrite Hc, IH.
Qed.

Lemma drop_all (s : string) : drop (String.length s) s = "".
Proof. induction s as [|c s IH]; [reflexivity | exact IH]. Qed.

Lemma trimStart_blank (s : string) : every isWhiteSpace s = true -> trimStart s = "".
Proof.
  induction s as [|c s IH]; intros H; [reflexivity|].
  cbn [every] in H. apply andb_true_iff in H. destruct H as [Hc Hs].
  simpl. now rewrite Hc, IH.
Qed.

Lemma trim_blank (s : string) : every isWhiteSpace s = true -> trim s = "".
Proof. intros H. unfold trim. now rewrite trimStart_blank. Qed.

Lemma collapse_blank (s : string) :
  every isWhiteSpace s = true ->
  every isWhiteSpace (replaceAll whitespaceRe " " s) = true.
Proof.
  intros H. destruct s as [|c s]; [now rewrite (replaceAll_nil whitespaceRe " " whitespaceRe_bounds)|].
  rewrite (replaceAll_match _ _ whitespaceRe_bounds _ (String.length (String c s))).
  - rewrite drop_all. now rewrite (replaceAll_nil whitespaceRe " " whitespaceRe_bounds).
  - unfold whitespaceRe. now rewrite (span_every _ _ H).
Qed.

Lemma includes_blank_at (s : string) :
  every isWhiteSpace s = true -> includes s "@" = false.
Proof.
  intros H. rewrite includes_char. apply negb_false_iff.
  induction s as [|c s IH]; [reflexivity|].
  cbn [every] in H. apply andb_true_iff in H. destruct H as [Hc Hs].
  cbn [without]. now rewrite (at_whitespace _ Hc), IH.
Qed.

Lemma cleanName_blank (s : string) : every isWhiteSpace s = true -> cleanName s = "".
Proof.
  intros H. rewrite cleanName_steps.
  rewrite (replaceAll_untouched honorificRe "" isWhiteSpace s honorificRe_bounds
             honorificRe_whitespace H).
  rewrite (replaceAll_untouched suffixRe "" isWhiteSpace s suffixRe_bounds
             suffixRe_whitespace H).
  now apply trim_blank, collapse_blank.
Qed.

Lemma cleanName_honorific (h : string) : isHonorific h = true -> cleanName h = "".
Proof.
  intros H. rewrite cleanName_steps.
  pose proof (honorificRe_here h "" H) as M. rewrite append_nil_r in M.
  rewrite (replaceAll_match _ _ honorificRe_bounds _ _ M), drop_all.
  reflexivity.
Qed.

Lemma dropped_when_short (this : PlaywrightFacultyExtractor) (clock : nat -> string)
    (method : string) (person : Raw.RawCandidate) :
  String.length (cleanName (Raw.name person)) <= 2 ->
  processFacultyData this clock [person] method = [].
Proof.
  intros H. pose proof (kept_names this clock method [person]) as K.
  cbn [map filter] in K.
  replace (2 <? String.length (cleanName (Raw.name person))) with false in K
    by (symmetry; apply Nat.ltb_ge; exact H).
  now destruct (processFacultyData this clock [person] method).
Qed.

(** X8: a text of nothing but white space is cleaned to the empty text by
    each of the four cleaners, and so is a bare honorific by [cleanName];
    the record processor drops a candidate with such a name. *)
Theorem blank_fields :
  forall s : string,
    (every isWhiteSpace s = true ->
     cleanName s = "" /\ cleanTitle s = "" /\ cleanEmail s = "" /\ cleanPhone s = "")
    /\ (isHonorific s = true -> cleanName s = "")
    /\ (every isWhiteSpace s = true \/ isHonorific s = true ->
        forall this clock person method,
          Raw.name person = s -> processFacultyData this clock [person] method = []).
Proof.
  intros s. split; [|split].
  - intros H. split; [now apply cleanName_blank|]. split; [|split].
    + unfold cleanTitle. destruct (isEmpty s); [reflexivity|].
      assert (E : replaceAtStart bulletRe "" s = s).
      { unfold replaceAtStart, bulletRe.
        now rewrite (span_every _ _ H), drop_all. }
      rewrite E. now apply trim_blank, collapse_blank.
    + unfold cleanEmail. rewrite (includes_blank_at _ H). now destruct (isEmpty s).
    + unfold cleanPhone. destruct s as [|c s]; [reflexivity|]. cbn [isEmpty].
      pose proof H as H'. cbn [every] in H'. apply andb_true_iff in H'.
      assert (E : replaceAtStart phoneLabelRe "" (String c s) = String c s).
      { unfold replaceAtStart, phoneLabelRe.
        now rewrite (phoneLabel_whitespace c s (proj1 H')). }
      rewrite E.
      rewrite (replaceAll_untouched nonPhoneRe "" isWhiteSpace _ nonPhoneRe_bounds); trivial.
      * now apply trim_blank.
      * intros a x Ha. simpl. now rewrite (isPhoneChar_whitespace _ Ha).
  - apply cleanName_honorific.
  - intros H this clock person method <-. apply dropped_when_short.
    destruct H as [H | H];
      [rewrite (cleanName_blank _ H) | rewrite (cleanName_honorific _ H)]; simpl; lia.
Qed.

Lemma blank_fields_witness :
  processFacultyData kansasExtractor midnight [named "PROF."] "kansas" = [].
Proof.
  apply (proj2 (proj2 (blank_fields "PROF.")) (or_intror eq_refl)
           kansasExtractor midnight (named "PROF.") "kansas").
  reflexivity.
Defined.

(* ================================================================== *)
(** ** Further properties of the resolver and the department name *)
(* ================================================================== *)

Lemma find_ext {A : Type} (f g : A -> bool) (l : list A) :
  (forall x, f x = g x) -> find f l = find g l.
Proof.
  intros H. induction l as [|x l IH]; [reflexivity|].
  simpl. now rewrite H, IH.
Qed.

(** X10: the resolver does not see the case of the name. *)
Theorem findProfileLink_case_insensitive :
  forall (name : string) (links : list Link.ProfileLinkEntry),
    findProfileLink (toLowerCase name) links = findProfileLink name links.
Proof.
  intros name links. unfold findProfileLink.
  rewrite toLowerCase_isEmpty, toLowerCase_idempotent.
  rewrite (find_ext (textMatches (toLowerCase name)) (textMatches name)); [reflexivity|].
  intros l. unfold textMatches. now rewrite toLowerCase_idempotent.
Qed.

(** X9: the department name is always one of the six keywords: the first of
    them, in the order of the list, that the page content contains, and
    "Music Department" when it contains none. *)
Theorem getDepartmentName_keyword :
  forall pageContent : string,
    In (getDepartmentName pageContent) musicKeywords
    /\ (forall keyword,
          firstSatisfying (fun k => includes pageContent k) musicKeywords keyword ->
          getDepartmentName pageContent = keyword)
    /\ ((forall k, In k musicKeywords -> includes pageContent k = false) ->
        getDepartmentName pageContent = "Music Department").
Proof.
  intros pageContent. unfold getDepartmentName. split; [|split].
  - destruct (find _ musicKeywords) as [k|] eqn:E.
    + exact (proj1 (find_some _ _ E)).
    + simpl. tauto.
  - intros k Hk.
    match goal with
    | |- context [find ?f musicKeywords] => now rewrite (find_first f musicKeywords k Hk)
    end.
  - intros H.
    match goal with
    | |- context [find ?f musicKeywords] => now rewrite (find_none_all f musicKeywords H)
    end.
Qed.

(* ================================================================== *)
(** ** Further properties of the extraction session *)
(* ================================================================== *)

Lemma In_mapFrom_nth {A B : Type} (f : nat -> A -> B) (l : list A) (i : nat) (y : B) :
  In y (mapFrom f i l) -> exists j x, nth_error l j = Some x /\ y = f (i + j) x.
Proof.
  revert i; induction l as [|x l IH]; intros i H; simpl in H; [contradiction|].
  destruct H as [<- | H].
  - exists 0, x. now rewrite Nat.add_0_r.
  - destruct (IH _ H) as (j & z & Hz & ->). exists (S j), z.
    split; [exact Hz | f_equal; lia].
Qed.

Lemma mapFrom_shift {A B : Type} (f : nat -> A -> B) (k i : nat) (l : list A) :
  mapFrom f (k + i) l = mapFrom (fun j => f (k + j)) i l.
Proof.
  revert i; induction l as [|x l IH]; intros i; [reflexivity|].
  simpl. f_equal. rewrite <- IH. f_equal. lia.
Qed.

Lemma mapFrom_app {A B : Type} (f : nat -> A -> B) (i : nat) (a b : list A) :
  mapFrom f i (a ++ b)%list = (mapFrom f i a ++ mapFrom f (length a + i) b)%list.
Proof.
  revert i; induction a as [|x a IH]; intros i; [reflexivity|].
  simpl. f_equal. rewrite IH. f_equal. f_equal. lia.
Qed.

Lemma findProfileLink_from_list (name : string) (links : list Link.ProfileLinkEntry) :
  findProfileLink name links = ""
  \/ exists l, In l links /\ findProfileLink name links = Link.href l.
Proof.
  unfold findProfileLink.
  destruct (isEmpty name || (length links =? 0)); [now left|].
  destruct (find (textMatches name) links) as [l|] eqn:E.
  - right. exists l. split; [exact (proj1 (find_some _ _ E)) | reflexivity].
  - destruct (find (urlMatches _ _) links) as [l|] eqn:E'; [|now left].
    right. exists l. split; [exact (proj1 (find_some _ _ E')) | reflexivity].
Qed.

(** A record of the output, traced back to its candidate. *)
Lemma record_origin (this : PlaywrightFacultyExtractor) (clock : nat -> string)
    (raw : list Raw.RawCandidate) (method : string) (r : Faculty.FacultyRecord) :
  In r (processFacultyData this clock raw method) ->
  exists i person,
    nth_error raw i = Some person /\ r = processPerson this method (clock i) person.
Proof.
  unfold processFacultyData. intros H. apply filter_In in H. destruct H as [H _].
  apply In_mapFrom_nth in H. destruct H as (j & person & Hj & ->). now exists j, person.
Qed.

(** X11: every record the processor emits comes from one candidate of its
    input, is stamped with the method, the page URL, the university and the
    department of the session and with the time read for that candidate, and
    keeps the candidate's own profile link when there is one; otherwise its
    profile link is empty or the link of an entry of the page's inventory,
    never anything else. *)
Theorem record_provenance :
  forall (this : PlaywrightFacultyExtractor) (clock : nat -> string)
         (raw : list Raw.RawCandidate) (method : string) (r : Faculty.FacultyRecord),
    In r (processFacultyData this clock raw method) ->
    exists i person,
      nth_error raw i = Some person
      /\ Faculty.name r = cleanName (Raw.name person)
      /\ Faculty.scrapedAt r = clock i
      /\ Faculty.extractionMethod r = method
      /\ Faculty.sourceUrl r = url (page this)
      /\ Faculty.university r = universityName this
      /\ Faculty.department r = departmentName this
      /\ (Raw.profileLink person <> "" -> Faculty.profileLink r = Raw.profileLink person)
      /\ (Raw.profileLink person = "" ->
          Faculty.profileLink r = ""
          \/ exists l, In l (profileLinks this) /\ Faculty.profileLink r = Link.href l).
Proof.
  intros this clock raw method r H.
  destruct (record_origin _ _ _ _ _ H) as (i & person & Hi & ->).
  exists i, person. repeat split; try assumption.
  - intros Hl. unfold processPerson; cbn [Faculty.profileLink].
    apply isEmpty_false in Hl. now rewrite Hl.
  - intros Hl. unfold processPerson; cbn [Faculty.profileLink]. rewrite Hl.
    cbn [isEmpty andb].
    destruct (negb (isEmpty (cleanName (Raw.name person)))); [|now left].
    apply findProfileLink_from_list.
Qed.

Lemma record_provenance_witness :
  exists i person,
    nth_error [johnDoe ""] i = Some person
    /\ Faculty.name johnDoeRecord = cleanName (Raw.name person)
    /\ Faculty.scrapedAt johnDoeRecord = midnight i
    /\ Faculty.extractionMethod johnDoeRecord = "kansas"
    /\ Faculty.sourceUrl johnDoeRecord = url (page kansasExtractor)
    /\ Faculty.university johnDoeRecord = universityName kansasExtractor
    /\ Faculty.department johnDoeRecord = departmentName kansasExtractor
    /\ (Raw.profileLink person <> "" ->
        Faculty.profileLink johnDoeRecord = Raw.profileLink person)
    /\ (Raw.profileLink person = "" ->
        Faculty.profileLink johnDoeRecord = ""
        \/ exists l, In l (profileLinks kansasExtractor)
                     /\ Faculty.profileLink johnDoeRecord = Link.href l).
Proof.
  apply (record_provenance kansasExtractor midnight [johnDoe ""] "kansas").
  left. reflexivity.
Defined.

(** X12: the email of an emitted record is empty or contains an at sign; a
    record without email has confidence 0.1 and source "generic", so that a
    record whose source is "name-matched" always has an email. *)
Theorem record_email :
  forall (this : PlaywrightFacultyExtractor) (clock : nat -> string)
         (raw : list Raw.RawCandidate) (method : string) (r : Faculty.FacultyRecord),
    In r (processFacultyData this clock raw method) ->
    (Faculty.email r = "" \/ includes (Faculty.email r) "@" = true)
    /\ (Faculty.email r = "" ->
        Faculty.emailConfidence r = 0.1%Q /\ Faculty.emailSource r = "generic")
    /\ (Faculty.emailSource r = "name-matched" -> includes (Faculty.email r) "@" = true).
Proof.
  intros this clock raw method r H.
  destruct (record_origin _ _ _ _ _ H) as (i & person & _ & ->).
  unfold processPerson;
    cbn [Faculty.email Faculty.emailConfidence Faculty.emailSource].
  assert (Hgeneric : cleanEmail (Raw.email person) = "" ->
                     calculateEmailConfidence (cleanName (Raw.name person))
                       (cleanEmail (Raw.email person)) = 0.1%Q).
  { intros ->. unfold calculateEmailConfidence.
    now destruct (isEmpty (cleanName (Raw.name person))). }
  destruct (cleanEmail_cases (Raw.email person)) as [E | [_ E]].
  - split; [now left|]. rewrite (Hgeneric E). split; [now split|]. discriminate.
  - split; [now right|]. split; [|intros _; exact E].
    intros E'. rewrite (Hgeneric E'). now split.
Qed.

Lemma record_email_witness :
  (Faculty.email johnDoeRecord = "" \/ includes (Faculty.email johnDoeRecord) "@" = true)
  /\ (Faculty.email johnDoeRecord = "" ->
      Faculty.emailConfidence johnDoeRecord = 0.1%Q
      /\ Faculty.emailSource johnDoeRecord = "generic")
  /\ (Faculty.emailSource johnDoeRecord = "name-matched" ->
      includes (Faculty.email johnDoeRecord) "@" = true).
Proof.
  apply (record_email kansasExtractor midnight [johnDoe ""] "kansas").
  left. reflexivity.
Defined.

(** X13: the processor treats its candidates one by one: the records of two
    lists put together are the records of the first followed by those of the
    second, the clock of the second being read from where the first ended. *)
Theorem processFacultyData_app :
  forall (this : PlaywrightFacultyExtractor) (clock : nat -> string)
         (first second : list Raw.RawCandidate) (method : string),
    processFacultyData this clock (first ++ second)%list method
    = (processFacultyData this clock first method
       ++ processFacultyData this (fun i => clock (length first + i)) second method)%list.
Proof.
  intros this clock first second method. unfold processFacultyData.
  rewrite mapFrom_app, filter_app. f_equal. f_equal.
  apply (mapFrom_shift
           (fun i person => processPerson this method (clock i) person) (length first) 0).
Qed.

Lemma In_compact {A : Type} (l : list (option A)) (x : A) :
  In x (compact l) <-> In (Some x) l.
Proof.
  induction l as [|[y|] l IH]; simpl.
  - tauto.
  - rewrite IH. split; intros [H | H]; auto; left; congruence.
  - rewrite IH. split; [auto | intros [H | H]; [discriminate | exact H]].
Qed.

Lemma rawFaculty_named (d : Dialect) (p : Page) (person : Raw.RawCandidate) :
  In person (rawFaculty d p) ->
  In (Some person) (mapped p d)
  /\ Raw.name person <> ""
  /\ (d = Illinois ->
      includes (Raw.name person) "Professor of" = false
      /\ includes (Raw.name person) "Director of" = false).
Proof.
  unfold rawFaculty. intros H. apply In_compact, filter_In in H.
  destruct H as [Hin Hf]. split; [exact Hin|].
  destruct d; simpl in Hf.
  1,3,4: split; [now apply isEmpty_false, negb_true_iff | discriminate].
  apply andb_true_iff in Hf. destruct Hf as [Hf H3].
  apply andb_true_iff in Hf. destruct Hf as [H1 H2].
  split; [now apply isEmpty_false, negb_true_iff|]. intros _.
  now split; apply negb_true_iff.
Qed.

(** X14: every record a dialect extractor emits carries the tag of its
    dialect and is named, after cleaning, from a row of that dialect on the
    page whose raw name is not empty, and which, for the Illinois dialect,
    contains neither "Professor of" nor "Director of"; its cleaned name has
    more than 2 characters. *)
Theorem extract_provenance :
  forall (this : PlaywrightFacultyExtractor) (clock : nat -> string) (d : Dialect)
         (r : Faculty.FacultyRecord),
    In r (extract this clock d) ->
    Faculty.extractionMethod r = tag d
    /\ 2 < String.length (Faculty.name r)
    /\ exists person,
         In (Some person) (mapped (page this) d)
         /\ Raw.name person <> ""
         /\ (d = Illinois ->
             includes (Raw.name person) "Professor of" = false
             /\ includes (Raw.name person) "Director of" = false)
         /\ Faculty.name r = cleanName (Raw.name person).
Proof.
  intros this clock d r H.
  assert (H' : In r (processFacultyData this clock (rawFaculty d (page this)) (tag d)))
    by now destruct d.
  clear H. pose proof H' as Hk. unfold processFacultyData in Hk.
  apply filter_In in Hk. destruct Hk as [_ Hk].
  apply andb_true_iff in Hk. destruct Hk as [_ Hk]. apply Nat.ltb_lt in Hk.
  destruct (record_origin _ _ _ _ _ H') as (i & person & Hi & ->).
  split; [reflexivity|]. split; [exact Hk|].
  exists person. apply nth_error_In in Hi.
  destruct (rawFaculty_named _ _ _ Hi) as (H1 & H2 & H3).
  split; [exact H1 | split; [exact H2 | split; [exact H3 | reflexivity]]].
Qed.

Lemma extract_provenance_witness :
  Faculty.extractionMethod johnDoeRecord = tag Kansas
  /\ 2 < String.length (Faculty.name johnDoeRecord)
  /\ exists person,
       In (Some person) (mapped (page kansasExtractor) Kansas)
       /\ Raw.name person <> ""
       /\ (Kansas = Illinois ->
           includes (Raw.name person) "Professor of" = false
           /\ includes (Raw.name person) "Director of" = false)
       /\ Faculty.name johnDoeRecord = cleanName (Raw.name person).
Proof.
  apply (extract_provenance kansasExtractor midnight Kansas).
  left. reflexivity.
Defined.

(** X15: whenever [initialize] succeeds, the URL constructor has accepted
    the URL, and the session keeps its page, has a university name, has one
    of the six department keywords as department name, and holds as profile
    links the anchors of the page whose text has more than 3 characters, in
    page order. *)
Theorem initialize_session :
  forall (hostname : string -> option string) (this session : PlaywrightFacultyExtractor)
         (url : string),
    initialize hostname this url = Returns session ->
    (exists h, hostname url = Some h)
    /\ page session = page this
    /\ (exists u, universityName session = Some u)
    /\ (exists k, In k musicKeywords /\ departmentName session = Some k)
    /\ profileLinks session
       = filter (fun l => 3 <? String.length (Link.text l)) (anchors (page this)).
Proof.
  intros hostname this session url. unfold initialize, getUniversityName.
  destruct (hostname url) as [h|]; [|discriminate].
  intros Hs. split; [now exists h|].
  assert (E : exists u,
             session = {| page := page this;
                          universityName := Some u;
                          departmentName := Some (getDepartmentName (departmentText (page this)));
                          profileLinks := extractAllProfileLinks (page this) |}).
  { destruct (find _ universityDomains);
      [|destruct (if includes (universityText (page this)) "University" then _ else _)];
      injection Hs as <-; eexists; reflexivity. }
  destruct E as [u ->]. cbn [page universityName departmentName profileLinks].
  split; [reflexivity|]. split; [now exists u|]. split.
  - eexists. split; [|reflexivity].
    unfold getDepartmentName.
    destruct (find _ musicKeywords) as [k|] eqn:F;
      [exact (proj1 (find_some _ _ F)) | simpl; tauto].
  - unfold extractAllProfileLinks. apply filter_ext. intros l.
    now destruct (Link.text l).
Qed.

Lemma initialize_session_witness :
  (exists h, URL.hostname (url kansasPage) = Some h)
  /\ page kansasExtractor = page (constructor kansasPage)
  /\ (exists u, universityName kansasExtractor = Some u)
  /\ (exists k, In k musicKeywords /\ departmentName kansasExtractor = Some k)
  /\ profileLinks kansasExtractor
     = filter (fun l => 3 <? String.length (Link.text l))
              (anchors (page (constructor kansasPage))).
Proof.
  apply (initialize_session URL.hostname (constructor kansasPage) kansasExtractor
           (url kansasPage)).
  reflexivity.
Defined.


